(** * Smart-City-Data: the globe of [js/script.js]

    A shallow embedding of the globe logic (projection of geographic
    coordinates, border drawing, automatic rotation, drag rotation) and of
    the section navigation of [js/script.js].

    JavaScript numbers are modelled as real numbers: the arithmetic of the
    script is read over exact reals, so rounding, NaN and infinities are
    outside the model. *)

From Stdlib Require Import Reals Lra List String ZArith Bool.
From Stdlib Require Import DecimalString.
Import ListNotations.

Open Scope R_scope.

(** ** 1. Geographic projection *)

Module Projector.

(** [THREE.Vector3]. *)
Record Vector3 : Type := mkVector3 { vx : R; vy : R; vz : R }.

(** [latLonToVector3(lat, lon, radius)], script.js lines 65-74. *)
Definition latLonToVector3 (lat lon radius : R) : Vector3 :=
  let phi := (90 - lat) * (PI / 180) in
  let theta := (lon + 180) * (PI / 180) in
  let x := - radius * sin phi * cos theta in
  let y := radius * cos phi in
  let z := radius * sin phi * sin theta in
  mkVector3 x y z.

(** The projection as the specification words it: colatitude
    [(90 - latitude) * pi / 180], azimuth [(longitude + 180) * pi / 180],
    and the three Cartesian components. *)
Definition spec_phi (latitude : R) : R := (90 - latitude) * PI / 180.
Definition spec_theta (longitude : R) : R := (longitude + 180) * PI / 180.
Definition spec_project (latitude longitude radius : R) : Vector3 :=
  mkVector3 (- (radius * sin (spec_phi latitude) * cos (spec_theta longitude)))
            (radius * cos (spec_phi latitude))
            (radius * sin (spec_phi latitude) * sin (spec_theta longitude)).

(** Squared Euclidean norm of a vector. *)
Definition norm2 (v : Vector3) : R := vx v * vx v + vy v * vy v + vz v * vz v.

(** Euclidean distance from the origin, [Vector3.length()]. *)
Definition length (v : Vector3) : R := sqrt (norm2 v).

End Projector.

(** ** 2. Parsed JSON and the values the script reads from it *)

Module Json.

(** What [r.json()] can produce. *)
#[warnings="-register-all"]
Inductive json : Type :=
| JNull
| JBool (b : bool)
| JNum (r : R)
| JStr (s : string)
| JArr (items : list json)
| JObj (fields : list (string * json)).

(** A value read from parsed JSON: [None] is [undefined]. *)
Definition value : Type := option json.

(** Exceptions the globe code can meet. *)
Inductive exn : Type :=
| TypeError
| SyntaxError
| NetworkFailure
| Error (message : string).

(** How a piece of code ends: normally with a value, or by throwing. *)
Inductive completion (A : Type) : Type :=
| Normal (a : A)
| Throw (e : exn).
Arguments Normal {A} a.
Arguments Throw {A} e.

Fixpoint lookup (name : string) (fields : list (string * json)) : value :=
  match fields with
  | [] => None
  | (k, v) :: rest => if String.eqb k name then Some v else lookup name rest
  end.

(** [v.name], for a name that no prototype defines ([features], [geometry],
    [type], [coordinates]). *)
Definition get_prop (v : value) (name : string) : completion value :=
  match v with
  | None | Some JNull => Throw TypeError
  | Some (JObj fields) => Normal (lookup name fields)
  | Some _ => Normal None
  end.

(** [v[0]]. *)
Definition get_index0 (v : value) : completion value :=
  match v with
  | None | Some JNull => Throw TypeError
  | Some (JArr items) => Normal (nth_error items 0)
  | Some (JStr s) =>
      Normal (match s with
              | EmptyString => None
              | String c _ => Some (JStr (String c EmptyString))
              end)
  | Some (JObj fields) => Normal (lookup "0" fields)
  | Some _ => Normal None
  end.

(** [typeof v === 'number']. *)
Definition is_number (v : value) : bool :=
  match v with Some (JNum _) => true | _ => false end.

(** [v === s] for a string literal [s]. *)
Definition strict_eq_string (v : value) (s : string) : bool :=
  match v with Some (JStr t) => String.eqb t s | _ => false end.

(** Truthiness, as tested by [!v]. *)
Definition truthy (v : value) : bool :=
  match v with
  | None | Some JNull => false
  | Some (JBool b) => b
  | Some (JNum r) => if Req_dec_T r 0 then false else true
  | Some (JStr s) => negb (String.eqb s "")
  | Some (JArr _) | Some (JObj _) => true
  end.

(** [Array.isArray(v)], giving the elements. *)
Definition as_array (v : value) : option (list json) :=
  match v with Some (JArr items) => Some items | _ => None end.

(** The two names bound by the pattern [[lon, lat]]: the first two items
    the value yields when iterated. Only arrays and strings are iterable. *)
Definition destructure2 (v : json) : completion (value * value) :=
  match v with
  | JArr items => Normal (nth_error items 0, nth_error items 1)
  | JStr s =>
      Normal (match s with
              | EmptyString => (None, None)
              | String c EmptyString => (Some (JStr (String c EmptyString)), None)
              | String c (String d _) =>
                  (Some (JStr (String c EmptyString)), Some (JStr (String d EmptyString)))
              end)
  | _ => Throw TypeError
  end.

End Json.

(** ** 3. Border renderer and the loading of the boundary data *)

Module Borders.
Import Projector Json.

(** [THREE.LineBasicMaterial] with the parameters the script gives it. *)
Record LineBasicMaterial : Type := mkMaterial {
  color : Z;
  linewidth : R;
  transparent : bool;
  opacity : R
}.

(** [THREE.LineLoop]: a closed loop through the points of its geometry. *)
Record LineLoop : Type := mkLineLoop {
  points : list Vector3;
  material : LineBasicMaterial
}.

(** One call of [console.warn(label, err)]. *)
Record warning : Type := mkWarning { label : string; cause : exn }.

(** What the border code reads and writes: the children of [bordersGroup]
    and the console. *)
Record world : Type := mkWorld {
  bordersGroup : list LineLoop;
  console : list warning
}.

Definition EARTH_RADIUS : R := 200.

Definition borderMaterial : LineBasicMaterial :=
  mkMaterial 0x99d0ff 1 true 0.9.

Definition GEOJSON_URL : string :=
  "https://raw.githubusercontent.com/johan/world.geo.json/master/countries.geo.json".

(** Code that runs on the world and may throw; what it wrote before
    throwing stays written. *)
Definition M (A : Type) : Type := world -> completion A * world.

Definition ret {A} (a : A) : M A := fun w => (Normal a, w).
Definition throw {A} (e : exn) : M A := fun w => (Throw e, w).
Definition bind {A B} (m : M A) (k : A -> M B) : M B :=
  fun w => match m w with
           | (Normal a, w') => k a w'
           | (Throw e, w') => (Throw e, w')
           end.
Definition lift {A} (c : completion A) : M A := fun w => (c, w).

(** [try { m } catch (err) { handler(err) }], which is what [.catch] does
    to the chain before it. *)
Definition catch {A} (m : M A) (handler : exn -> M A) : M A :=
  fun w => match m w with
           | (Normal a, w') => (Normal a, w')
           | (Throw e, w') => handler e w'
           end.

Declare Scope js_scope.
Delimit Scope js_scope with js.
Notation "x <- m ;; k" := (bind m (fun x => k))
  (at level 61, m at next level, right associativity) : js_scope.
Notation "m ;;; k" := (bind m (fun _ => k))
  (at level 61, right associativity) : js_scope.
Open Scope js_scope.

(** [items.forEach(body)] on an array already known to be one. *)
Fixpoint forEach (items : list json) (body : json -> M unit) : M unit :=
  match items with
  | [] => ret tt
  | item :: rest => body item ;;; forEach rest body
  end.

(** [v.forEach(body)]: a [TypeError] unless [v] is an array. *)
Definition value_forEach (v : value) (body : json -> M unit) : M unit :=
  match as_array v with
  | Some items => forEach items body
  | None => throw TypeError
  end.

(** [bordersGroup.add(line)]. *)
Definition add (line : LineLoop) : M unit :=
  fun w => (Normal tt, mkWorld (bordersGroup w ++ [line]) (console w)).

(** [console.warn(label, err)]. *)
Definition console_warn (l : string) (err : exn) : M unit :=
  fun w => (Normal tt, mkWorld (bordersGroup w) (console w ++ [mkWarning l err])).

Section Drawing.

(** What [latLonToVector3] yields when an operand is not a number: the
    language converts the operands before the arithmetic (text to number,
    list to text, ...). Those conversions are outside this development,
    which takes their outcome as given and assumes nothing about it. *)
Variable latLonToVector3_converted : value -> value -> R -> completion Vector3.

(** The call [latLonToVector3(lat, lon, radius)] on values read from JSON. *)
Definition call_latLonToVector3 (lat lon : value) (radius : R) : completion Vector3 :=
  match lat, lon with
  | Some (JNum la), Some (JNum lo) => Normal (latLonToVector3 la lo radius)
  | _, _ => latLonToVector3_converted lat lon radius
  end.

(** The inner loop of [drawCountryLine]:
    [ring.forEach(([lon, lat]) => points.push(...))]. *)
Fixpoint ring_points (positions : list json) (radius : R) : completion (list Vector3) :=
  match positions with
  | [] => Normal []
  | position :: rest =>
      match destructure2 position with
      | Throw e => Throw e
      | Normal (lon, lat) =>
          match call_latLonToVector3 lat lon (radius + 0.5) with
          | Throw e => Throw e
          | Normal p =>
              match ring_points rest radius with
              | Throw e => Throw e
              | Normal ps => Normal (p :: ps)
              end
          end
      end
  end.

(** The body of [rings.forEach((ring) => ...)]. *)
Definition draw_ring (mat : LineBasicMaterial) (radius : R) (ring : json) : M unit :=
  match as_array (Some ring) with
  | None => throw TypeError
  | Some positions =>
      pts <- lift (ring_points positions radius) ;;
      add (mkLineLoop pts mat)
  end.

(** [drawCountryLine(coords, material, radius)], script.js lines 77-92. *)
Definition drawCountryLine (coords : value) (mat : LineBasicMaterial) (radius : R) : M unit :=
  match as_array coords with
  | None => ret tt
  | Some [] => ret tt
  | Some (first :: others) =>
      first0 <- lift (get_index0 (Some first)) ;;
      let rings := if is_number first0 then [JArr (first :: others)] else first :: others in
      forEach rings (draw_ring mat radius)
  end.

(** The callback of [geojson.features.forEach], script.js lines 112-121. *)
Definition draw_feature (feature : json) : M unit :=
  geom <- lift (get_prop (Some feature) "geometry") ;;
  if negb (truthy geom) then ret tt
  else
    ty <- lift (get_prop geom "type") ;;
    if strict_eq_string ty "Polygon" then
      coordinates <- lift (get_prop geom "coordinates") ;;
      drawCountryLine coordinates borderMaterial EARTH_RADIUS
    else
      ty' <- lift (get_prop geom "type") ;;
      if strict_eq_string ty' "MultiPolygon" then
        coordinates <- lift (get_prop geom "coordinates") ;;
        value_forEach coordinates
          (fun poly => drawCountryLine (Some poly) borderMaterial EARTH_RADIUS)
      else ret tt.

(** The second [.then] handler, script.js lines 111-122. *)
Definition draw_features (geojson : json) : M unit :=
  features <- lift (get_prop (Some geojson) "features") ;;
  value_forEach features draw_feature.

(** How [fetch(GEOJSON_URL)] settles: it rejects on a transport failure,
    otherwise it resolves to a response with a status and a body; the body
    is [None] when it is not JSON. *)
Inductive fetch_result : Type :=
| Rejected
| Resolved (status : Z) (body : option json).

(** [r.ok]: the status is in the range 200-299. *)
Definition ok (status : Z) : bool := ((200 <=? status) && (status <=? 299))%Z.

Definition fetch (outcome : fetch_result) : M (Z * option json) :=
  match outcome with
  | Rejected => throw NetworkFailure
  | Resolved status body => ret (status, body)
  end.

(** The first [.then] handler, script.js lines 107-110. *)
Definition check_response (r : Z * option json) : M json :=
  let (status, body) := r in
  if negb (ok status) then
    throw (Error ("Failed to load GeoJSON: " ++ NilZero.string_of_int (Z.to_int status)))
  else
    match body with
    | Some geojson => ret geojson
    | None => throw SyntaxError
    end.

(** The whole chain [fetch(...).then(...).then(...).catch(...)],
    script.js lines 106-125. Its completion is that of the promise the
    chain ends with: a [Throw] would be an unhandled rejection. *)
Definition load_borders (outcome : fetch_result) : M unit :=
  catch (r <- fetch outcome ;;
         geojson <- check_response r ;;
         draw_features geojson)
        (fun err => console_warn "Could not load or draw country borders:" err).

(** The world when the script starts. *)
Definition initial_world : world := mkWorld [] [].

End Drawing.

(** *** Well-formed boundary data, and the features the renderer skips *)

(** A position [[lon, lat]], a ring of positions, a polygon (a list of
    rings) and the coordinates of a MultiPolygon (a list of polygons), as
    parsed JSON. *)
Definition position (p : R * R) : json := JArr [JNum (fst p); JNum (snd p)].
Definition ring (r : list (R * R)) : json := JArr (map position r).
Definition polygon (rings : list (list (R * R))) : json := JArr (map ring rings).
Definition multipolygon (polys : list (list (list (R * R)))) : json :=
  JArr (map polygon polys).

(** A feature with a geometry of the given type and coordinates. *)
Definition feature (type : string) (coordinates : json) : json :=
  JObj [("type", JStr "Feature");
        ("geometry", JObj [("type", JStr type); ("coordinates", coordinates)])]%string.

(** The payload of the boundary data source. *)
Definition featureCollection (features : list json) : json :=
  JObj [("type", JStr "FeatureCollection"); ("features", JArr features)]%string.

(** The line loop through the projections of a ring's positions, at the
    Earth radius plus the offset 0.5. *)
Definition border_of (r : list (R * R)) : LineLoop :=
  mkLineLoop (map (fun p => latLonToVector3 (snd p) (fst p) (EARTH_RADIUS + 0.5)) r)
             borderMaterial.

(** A feature whose geometry is null or missing. *)
Definition geometry_missing (f : json) : bool :=
  match f with
  | JObj fields =>
      match lookup "geometry" fields with
      | None | Some JNull => true
      | Some _ => false
      end
  | _ => false
  end.

(** A feature whose geometry has a type that is neither ["Polygon"] nor
    ["MultiPolygon"] (or has none). *)
Definition geometry_unrecognized (f : json) : bool :=
  match f with
  | JObj fields =>
      match lookup "geometry" fields with
      | Some (JObj geom) =>
          negb (strict_eq_string (lookup "type" geom) "Polygon")
          && negb (strict_eq_string (lookup "type" geom) "MultiPolygon")
      | _ => false
      end
  | _ => false
  end.

(** A coordinates payload that is not an array, or is an empty array. *)
Definition not_array_or_empty (coords : value) : bool :=
  match coords with
  | Some (JArr []) => true
  | Some (JArr (_ :: _)) => false
  | _ => true
  end.

(** A fetch that fails: a transport error, or a status outside 200-299. *)
Definition fetch_failed (outcome : fetch_result) : bool :=
  match outcome with
  | Rejected => true
  | Resolved status _ => negb (ok status)
  end.

(** The world after [lines] were added to the borders group. *)
Definition added (lines : list LineLoop) (w : world) : world :=
  mkWorld (bordersGroup w ++ lines) (console w).

(** *** Sample data *)

(** The conversions play no part where every coordinate is a number; the
    examples take them to throw. *)
Definition no_conversion : value -> value -> R -> completion Vector3 :=
  fun _ _ _ => Throw TypeError.

(** Two rings of four coordinate pairs. *)
Definition square : list (R * R) := [(0, 0); (10, 0); (10, 10); (0, 10)].
Definition kite : list (R * R) := [(20, 20); (30, 20); (30, 30); (25, 35)].

(** *** Boundary data by shape *)

(** The geometries the renderer draws: a Polygon is a list of rings, a
    MultiPolygon a list of polygons. *)
Inductive geometry : Type :=
| Polygon (rings : list (list (R * R)))
| MultiPolygon (polys : list (list (list (R * R)))).

Definition feature_of (g : geometry) : json :=
  match g with
  | Polygon rings => feature "Polygon" (polygon rings)
  | MultiPolygon polys => feature "MultiPolygon" (multipolygon polys)
  end.

Definition rings_of (g : geometry) : list (list (R * R)) :=
  match g with
  | Polygon rings => rings
  | MultiPolygon polys => List.concat polys
  end.

(** The items of [geojson.features], when the payload is an object that
    has such an array. *)
Definition features_of (geojson : json) : option (list json) :=
  match geojson with
  | JObj fields => as_array (lookup "features" fields)
  | _ => None
  end.

(** The warning the chain logs for [err]. *)
Definition load_warning (err : exn) : warning :=
  mkWarning "Could not load or draw country borders:" err.

(** Code that, whatever it completes with, leaves the console alone and
    only appends to the borders group. *)
Definition appends {A : Type} (m : M A) : Prop :=
  forall w, exists lines, snd (m w) = added lines w.

End Borders.

(** ** 4. Rotation of the globe: animation frames and pointer drags *)

Module Euler.

(** [THREE.Euler], the [rotation] of an object. *)
Record t : Type := mk { x : R; y : R; z : R; order : string }.

(** The rotation of a freshly created object. *)
Definition zero : t := mk 0 0 0 "XYZ".

(** [target.copy(source)]: every component of [source] is assigned. *)
Definition copy (source : t) : t := mk (x source) (y source) (z source) (order source).

Definition set_x (v : R) (r : t) : t := mk v (y r) (z r) (order r).
Definition set_y (v : R) (r : t) : t := mk (x r) v (z r) (order r).

End Euler.

Module Point.

(** The object literal [{ x: ..., y: ... }]. *)
Record t : Type := mk { x : R; y : R }.

End Point.

Module Rotation.

(** The variables the animation and the pointer handlers read and write:
    the rotations of the three objects, [lastTime], [isDragging] and
    [previousMousePosition]. *)
Record globe : Type := mkGlobe {
  earthMesh : Euler.t;
  cloudMesh : Euler.t;
  bordersGroup : Euler.t;
  lastTime : R;
  isDragging : bool;
  previousMousePosition : Point.t
}.

(** The state the script sets up before any callback runs. *)
Definition initial : globe :=
  mkGlobe Euler.zero Euler.zero Euler.zero 0 false (Point.mk 0 0).

(** [v || 0] on a number: [0] is falsy, every other real is kept. *)
Definition or_zero (v : R) : R := if Req_dec_T v 0 then 0 else v.

(** The elapsed time [animate(t)] computes, in seconds. *)
Definition delta (t : R) (s : globe) : R := or_zero ((t - lastTime s) / 1000).

(** [animate(t)], script.js lines 139-152 (drawing the frame and asking for
    the next one do not touch the state). *)
Definition animate (t : R) (s : globe) : globe :=
  let delta := or_zero ((t - lastTime s) / 1000) in
  let earth := Euler.set_y (Euler.y (earthMesh s) + 0.08 * delta) (earthMesh s) in
  let cloud := Euler.set_y (Euler.y (cloudMesh s) + 0.095 * delta) (cloudMesh s) in
  let borders := Euler.set_y (Euler.y earth) (bordersGroup s) in
  mkGlobe earth cloud borders t (isDragging s) (previousMousePosition s).

(** The [pointerdown] listener, script.js lines 159-162. *)
Definition pointerdown (clientX clientY : R) (s : globe) : globe :=
  mkGlobe (earthMesh s) (cloudMesh s) (bordersGroup s) (lastTime s)
          true (Point.mk clientX clientY).

(** The [pointerup] listener, script.js lines 163-165. *)
Definition pointerup (s : globe) : globe :=
  mkGlobe (earthMesh s) (cloudMesh s) (bordersGroup s) (lastTime s)
          false (previousMousePosition s).

Definition rotationSpeed : R := 0.005.

(** The [pointermove] listener, script.js lines 166-184. *)
Definition pointermove (clientX clientY : R) (s : globe) : globe :=
  if negb (isDragging s) then s
  else
    let deltaMove :=
      Point.mk (clientX - Point.x (previousMousePosition s))
               (clientY - Point.y (previousMousePosition s)) in
    let earth1 :=
      Euler.set_y (Euler.y (earthMesh s) + Point.x deltaMove * rotationSpeed)
                  (earthMesh s) in
    let earth2 :=
      Euler.set_x (Euler.x earth1 + Point.y deltaMove * rotationSpeed * 0.5) earth1 in
    mkGlobe earth2 (Euler.copy earth2) (Euler.copy earth2) (lastTime s)
            (isDragging s) (Point.mk clientX clientY).

(** What the host delivers. *)
Inductive event : Type :=
| Frame (t : R)
| PointerDown (clientX clientY : R)
| PointerUp
| PointerMove (clientX clientY : R).

Definition step (s : globe) (e : event) : globe :=
  match e with
  | Frame t => animate t s
  | PointerDown cx cy => pointerdown cx cy s
  | PointerUp => pointerup s
  | PointerMove cx cy => pointermove cx cy s
  end.

(** The handlers run to completion, one event after the other. *)
Definition run (events : list event) (s : globe) : globe :=
  fold_left step events s.

(** Every dependent layer has the orientation of the Earth mesh. *)
Definition synced (s : globe) : Prop :=
  cloudMesh s = earthMesh s /\ bordersGroup s = earthMesh s.

(** The calls after which the layers are said to be synchronised: a frame
    callback, or a pointer move while a drag is active. *)
Definition synchronizing (s : globe) (e : event) : bool :=
  match e with
  | Frame _ => true
  | PointerMove _ _ => isDragging s
  | _ => false
  end.

(** Sequences of events without a pointer-down or pointer-up: frames and
    pointer moves only. *)
Definition frames_and_moves (events : list event) : bool :=
  forallb (fun e => match e with
                    | Frame _ | PointerMove _ _ => true
                    | _ => false
                    end) events.


End Rotation.

(** ** 5. Section navigation and the quiz *)

Module Navigation.

(** An argument of [showSection]: a string, or any other value, kept with
    the text the language converts it to. *)
Inductive jsvalue : Type :=
| Str (s : string)
| Other (text : string).

(** [String(v)], as [getElementById] and the template literal apply it. *)
Definition to_text (v : jsvalue) : string :=
  match v with Str s => s | Other text => text end.

(** [v === s] for a string literal [s]. *)
Definition strict_eq (v : jsvalue) (s : string) : bool :=
  match v with Str t => String.eqb t s | Other _ => false end.

(** A section element: whether its class list has [active], and the
    [z-index] its style holds, if any. *)
Record section : Type := mkSection { active : bool; zIndex : option Z }.

(** What a timer does when it fires. *)
Inductive task : Type :=
| SetZIndex (id : string) (v : Z)
| Activate (id : string)
| ScrollToTop
| Call (function : string).

(** The page as navigation sees it. *)
Record page : Type := mkPage {
  currentSectionId : jsvalue;
  elements : string -> option section;
  log : list (string * jsvalue);
  timers : list (task * nat);
  calls : list string;
  history : list string
}.

Definition update (id : string) (e : section) (elements : string -> option section)
  : string -> option section :=
  fun id' => if String.eqb id' id then Some e else elements id'.

Definition console_log (l : string) (v : jsvalue) (p : page) : page :=
  mkPage (currentSectionId p) (elements p) (log p ++ [(l, v)]) (timers p)
         (calls p) (history p).

Definition setTimeout (k : task) (ms : nat) (p : page) : page :=
  mkPage (currentSectionId p) (elements p) (log p) (timers p ++ [(k, ms)])
         (calls p) (history p).

Definition call (function : string) (p : page) : page :=
  mkPage (currentSectionId p) (elements p) (log p) (timers p)
         (calls p ++ [function]) (history p).

Definition pushState (url : string) (p : page) : page :=
  mkPage (currentSectionId p) (elements p) (log p) (timers p) (calls p)
         (history p ++ [url]).

(** Step 1.1 of [showSection]: hide the section shown now. *)
Definition hide_current (p : page) : page :=
  let id := to_text (currentSectionId p) in
  match elements p id with
  | Some e =>
      setTimeout (SetZIndex id (-1)) 800
        (mkPage (currentSectionId p) (update id (mkSection false (zIndex e)) (elements p))
                (log p) (timers p) (calls p) (history p))
  | None => p
  end.

(** Step 1.2 of [showSection]: show the target section. *)
Definition show_new (targetId : jsvalue) (p : page) : page :=
  let id := to_text targetId in
  match elements p id with
  | Some e =>
      let p1 := mkPage (currentSectionId p) (update id (mkSection (active e) (Some 1%Z)) (elements p))
                       (log p) (timers p) (calls p) (history p) in
      let p2 := setTimeout (Activate id) 50 p1 in
      mkPage targetId (elements p2) (log p2) (timers p2) (calls p2) (history p2)
  | None => p
  end.

(** What happens when a timer fires: the closures [showSection] hands to
    [setTimeout]. *)
Definition fire (k : task) (p : page) : page :=
  match k with
  | SetZIndex id v =>
      match elements p id with
      | Some e =>
          mkPage (currentSectionId p) (update id (mkSection (active e) (Some v)) (elements p))
                 (log p) (timers p) (calls p) (history p)
      | None => p
      end
  | Activate id =>
      match elements p id with
      | Some e =>
          setTimeout ScrollToTop 100
            (mkPage (currentSectionId p) (update id (mkSection true (zIndex e)) (elements p))
                    (log p) (timers p) (calls p) (history p))
      | None => p
      end
  | ScrollToTop => call "scrollToTop" p
  | Call function => call function p
  end.

(** One of the tests of step 1.3: [if (targetId === name) action]. *)
Definition when (targetId : jsvalue) (name : string) (action : page -> page) (p : page) : page :=
  if strict_eq targetId name then action p else p.

(** How a call ends: it returns, or it throws the [ReferenceError] that
    reading a name defined nowhere raises. *)
Inductive completion : Type :=
| Returned
| ReferenceError (name : string).

(** [showSection(targetId)], script.js lines 201-279. The name
    [initializeChart] of line 232 is defined nowhere in the script: for
    ['correct_metrics'] the call throws there, after steps 1.1 and 1.2, and
    the rest of the function, step 1.4 included, does not run. *)
Definition showSection (targetId : jsvalue) (p : page) : completion * page :=
  let p := console_log "Navigating to:" targetId p in
  let p := hide_current p in
  let p := show_new targetId p in
  if strict_eq targetId "correct_metrics" then (ReferenceError "initializeChart", p)
  else
    let p := when targetId "california-forecast" (setTimeout (Call "initializeAirQualityChart") 500) p in
    let p := when targetId "california-case" (setTimeout (Call "initializeInteractiveButtons") 500) p in
    let p := when targetId "medellin-case" (setTimeout (Call "restartMedellinChartAnimations") 500) p in
    let p := when targetId "quiz" (setTimeout (Call "initializeQuizTransition") 100) p in
    let p := when targetId "solutions" (setTimeout (Call "initializeSolutionsNavigation") 500) p in
    let p := when targetId "applications" (setTimeout (Call "initializeActionForm") 500) p in
    (Returned, pushState ("#" ++ to_text targetId) p).

(** [handleQuiz(option)], script.js lines 282-288. *)
Definition handleQuiz (option : jsvalue) (p : page) : completion * page :=
  if strict_eq option "correct" then showSection (Str "correct") p
  else showSection option p.

(** The page before [initializePage] has run: [currentSectionId] is
    ['home'], nothing is logged, scheduled or pushed. *)
Definition initial (elements : string -> option section) : page :=
  mkPage (Str "home") elements [] [] [] [].

End Navigation.

(** ** 6. Page load, the Back button, and timers *)

Module PageLoad.
Import Navigation.

(** [window.location.hash.substring(1) || 'home']: the hash without its
    first character, or ['home'] when nothing is left. *)
Definition section_of_hash (hash : string) : string :=
  match hash with
  | EmptyString => "home"
  | String _ rest => if String.eqb rest "" then "home" else rest
  end.

(** [initializePage()], script.js lines 291-315, with the hash of the
    address the page was loaded from. *)
Definition initializePage (hash : string) (p : page) : page :=
  let initialHash := section_of_hash hash in
  let p :=
    match elements p initialHash with
    | Some e =>
        mkPage (Str initialHash)
               (update initialHash (mkSection true (Some 1%Z)) (elements p))
               (log p) (timers p) (calls p) (history p)
    | None => p
    end in
  setTimeout ScrollToTop 100 p.

(** The [popstate] listener, script.js lines 309-314, with the hash of the
    address the browser went to. *)
Definition popstate (hash : string) (p : page) : completion * page :=
  let hash := section_of_hash hash in
  if negb (String.eqb hash "") && negb (strict_eq (currentSectionId p) hash)
  then showSection (Str hash) p
  else (Returned, p).

(** Several navigations, one after the other, each called from a handler
    of its own: a call that throws ends there, and the page goes on from
    what that call had done. *)
Definition navigate (targets : list jsvalue) (p : page) : page :=
  fold_left (fun p targetId => snd (showSection targetId p)) targets p.

(** The targets for which [showSection] reaches [history.pushState]. *)
Definition pushes (targetId : jsvalue) : bool :=
  negb (strict_eq targetId "correct_metrics").

(** A page with three sections, [home] being shown. *)
Definition sample_sections : string -> option section :=
  update "home" (mkSection true (Some 1%Z))
    (update "quiz" (mkSection false None)
       (update "correct" (mkSection false None) (fun _ => None))).

End PageLoad.

Module Timers.
Import Navigation.

Definition with_timers (ts : list (task * nat)) (p : page) : page :=
  mkPage (currentSectionId p) (elements p) (log p) ts (calls p) (history p).

(** The timer that fires next, and the others: the one with the smallest
    delay, and of several with that delay the one registered first. *)
Fixpoint earliest (ts : list (task * nat)) : option ((task * nat) * list (task * nat)) :=
  match ts with
  | [] => None
  | t :: rest =>
      match earliest rest with
      | None => Some (t, [])
      | Some (m, rest') =>
          if (snd t <=? snd m)%nat then Some (t, rest) else Some (m, t :: rest')
      end
  end.

(** Time passes until the next timer fires: the delays of the others are
    counted from that moment on, and so are those of the timers its
    callback registers. *)
Definition fire_next (p : page) : option page :=
  match earliest (timers p) with
  | None => None
  | Some ((k, ms), rest) =>
      Some (fire k (with_timers (map (fun t => (fst t, (snd t - ms)%nat)) rest) p))
  end.

(** The page left alone until no timer is pending (at most [fuel] timers
    fire). *)
Fixpoint settle (fuel : nat) (p : page) : page :=
  match fuel with
  | O => p
  | S fuel' =>
      match fire_next p with
      | None => p
      | Some p' => settle fuel' p'
      end
  end.

End Timers.

(** ** 7. Info buttons *)

Module InfoButtons.
Import Json.

(** An [.info-button]: whether its class list has [active], its
    [data-target] attribute, and how many click listeners
    [initializeInteractiveButtons] has added to it. *)
Record button : Type := mkButton {
  active : bool;
  data_target : option string;
  listeners : nat
}.

(** [style.display] of the elements that have an id. *)
Definition displays : Type := string -> option string.

(** The info buttons in document order, and the contents they open. *)
Record dom : Type := mkDom { buttons : list button; display : displays }.

Definition set_display (id v : string) (display : displays) : displays :=
  fun id' => if String.eqb id' id then Some v else display id'.

(** [d === 'block' ? 'none' : 'block']. *)
Definition toggle_display (d : string) : string :=
  if String.eqb d "block" then "none" else "block".

(** [classList.toggle('active')]. *)
Definition toggle_active (b : button) : button :=
  mkButton (negb (active b)) (data_target b) (listeners b).

(** [toggleInfo(infoId, button)], script.js lines 441-453. *)
Definition toggleInfo (infoId : string) (b : button) (display : displays)
  : completion unit * button * displays :=
  let infoContent := display infoId in
  let b := toggle_active b in
  match infoContent with
  | None => (Throw TypeError, b, display)
  | Some d => (Normal tt, b, set_display infoId (toggle_display d) display)
  end.

(** The click listener of [initializeInteractiveButtons], script.js lines
    460-469, run on the button it was added to. *)
Definition on_click (b : button) (display : displays) : button * displays :=
  match data_target b with
  | None => (b, display)
  | Some targetId =>
      if String.eqb targetId "" then (b, display)
      else
        match display targetId with
        | None => (b, display)
        | Some d => (toggle_active b, set_display targetId (toggle_display d) display)
        end
  end.

(** [initializeInteractiveButtons()], script.js lines 456-471: one more
    listener on every info button. *)
Definition initializeInteractiveButtons (d : dom) : dom :=
  mkDom (map (fun b => mkButton (active b) (data_target b) (S (listeners b))) (buttons d))
        (display d).

(** A click runs the listeners of the button one after the other. *)
Fixpoint dispatch (n : nat) (b : button) (display : displays) : button * displays :=
  match n with
  | O => (b, display)
  | S n' => let (b', display') := on_click b display in dispatch n' b' display'
  end.

Fixpoint set_nth {A : Type} (i : nat) (a : A) (l : list A) : list A :=
  match l, i with
  | [], _ => []
  | _ :: rest, O => a :: rest
  | x :: rest, S i' => x :: set_nth i' a rest
  end.

(** A click on the [i]-th info button. *)
Definition click (i : nat) (d : dom) : dom :=
  match nth_error (buttons d) i with
  | None => d
  | Some b =>
      let (b', display') := dispatch (listeners b) b (display d) in
      mkDom (set_nth i b' (buttons d)) display'
  end.

(** What [display] is after an even, positive number of toggles. *)
Definition settled_display (d : string) : string :=
  if String.eqb d "block" then "block" else "none".

(** Two info buttons, the first of which opens the content [water-info]. *)
Definition sample_dom : dom :=
  mkDom [mkButton false (Some "water-info"%string) 0; mkButton false None 0]
        (set_display "water-info" "none" (fun _ => None)).

End InfoButtons.

(** ** 8. The air quality chart *)

Module AirQualityChart.

(** The charts made so far, numbered in the order of [new Chart(...)]:
    [airQualityChartInstance], how many were made, and which were
    destroyed. *)
Record charts : Type := mkCharts {
  airQualityChartInstance : option nat;
  created : nat;
  destroyed : list nat
}.

Definition no_charts : charts := mkCharts None 0 [].

(** [initializeAirQualityChart()], script.js lines 320-420; [canvas] tells
    whether the element [airQualityChart] exists. *)
Definition initializeAirQualityChart (canvas : bool) (s : charts) : charts :=
  let destroyed' :=
    match airQualityChartInstance s with
    | Some c => destroyed s ++ [c]
    | None => destroyed s
    end in
  if canvas
  then mkCharts (Some (created s)) (S (created s)) destroyed'
  else mkCharts (airQualityChartInstance s) (created s) destroyed'.

(** A chart that was made and not destroyed. *)
Definition live (s : charts) (c : nat) : bool :=
  (c <? created s)%nat && negb (existsb (Nat.eqb c) (destroyed s)).

(** The function called once per flag of [canvases]. *)
Definition initialize_all (canvases : list bool) (s : charts) : charts :=
  fold_left (fun s canvas => initializeAirQualityChart canvas s) canvases s.

End AirQualityChart.

(** ** 9. The solutions *)

Module Solutions.

(** A [.solution-nav-btn]: whether its class list has [active], its
    [data-solution] attribute, and how many click listeners
    [initializeSolutionsNavigation] has added to it. *)
Record navButton : Type := mkNavButton {
  active : bool;
  data_solution : option string;
  listeners : nat
}.

(** A [.preview-item]: its [data-solution] attribute and its listeners. *)
Record previewItem : Type := mkPreviewItem {
  item_solution : option string;
  item_listeners : nat
}.

(** An element with an id, other than a nav button - a solution panel:
    whether its class list has [solution-fullscreen], and whether it has
    [active]. *)
Record panel : Type := mkPanel { fullscreen : bool; shown : bool }.

(** The nav buttons and preview items in document order, the elements that
    have an id, in document order, and [document.body.style.overflow]. *)
Record document : Type := mkDom {
  navButtons : list navButton;
  previewItems : list previewItem;
  panels : list (string * panel);
  overflow : string
}.

(** [document.getElementById(id)]: the first element with that id. *)
Fixpoint getElementById (id : string) (l : list (string * panel)) : option panel :=
  match l with
  | [] => None
  | (k, e) :: rest => if String.eqb k id then Some e else getElementById id rest
  end.

(** [classList.add('active')] on the first element with that id. *)
Fixpoint add_active (id : string) (l : list (string * panel)) : list (string * panel) :=
  match l with
  | [] => []
  | (k, e) :: rest =>
      if String.eqb k id then (k, mkPanel (fullscreen e) true) :: rest
      else (k, e) :: add_active id rest
  end.

(** [solutionId + '-solution'], where a missing attribute reads [null]. *)
Definition solution_element_id (solutionId : option string) : string :=
  (match solutionId with Some s => s | None => "null" end ++ "-solution")%string.

(** [openSolution(solutionId)], script.js lines 481-487. *)
Definition openSolution (solutionId : option string) (d : document) : document :=
  let id := solution_element_id solutionId in
  match getElementById id (panels d) with
  | Some _ => mkDom (navButtons d) (previewItems d) (add_active id (panels d)) "hidden"
  | None => d
  end.

Definition set_active (a : bool) (b : navButton) : navButton :=
  mkNavButton a (data_solution b) (listeners b).

Fixpoint replace_nth {A : Type} (i : nat) (a : A) (l : list A) : list A :=
  match l, i with
  | [] , _ => []
  | _ :: rest, O => a :: rest
  | x :: rest, S i' => x :: replace_nth i' a rest
  end.

(** The click listener of a nav button, script.js lines 491-502, run on
    the [i]-th button. *)
Definition on_nav_click (i : nat) (d : document) : document :=
  match nth_error (navButtons d) i with
  | None => d
  | Some this =>
      let solutionId := data_solution this in
      let cleared := map (set_active false) (navButtons d) in
      let marked := replace_nth i (set_active true this) cleared in
      openSolution solutionId (mkDom marked (previewItems d) (panels d) (overflow d))
  end.

(** [a === b] on attribute values. *)
Definition attribute_eq (a b : option string) : bool :=
  match a, b with
  | Some x, Some y => String.eqb x y
  | None, None => true
  | _, _ => false
  end.

(** The click listener of a preview item, script.js lines 507-520, run on
    the [j]-th item. *)
Definition on_preview_click (j : nat) (d : document) : document :=
  match nth_error (previewItems d) j with
  | None => d
  | Some this =>
      let solutionId := item_solution this in
      let marked :=
        map (fun btn =>
               let btn := set_active false btn in
               if attribute_eq (data_solution btn) solutionId
               then set_active true btn else btn)
            (navButtons d) in
      openSolution solutionId (mkDom marked (previewItems d) (panels d) (overflow d))
  end.

(** [initializeSolutionsNavigation()], script.js lines 475-522: one more
    listener on every nav button and on every preview item. *)
Definition initializeSolutionsNavigation (d : document) : document :=
  mkDom (map (fun b => mkNavButton (active b) (data_solution b) (S (listeners b)))
             (navButtons d))
        (map (fun it => mkPreviewItem (item_solution it) (S (item_listeners it)))
             (previewItems d))
        (panels d) (overflow d).

(** [closeSolution()], script.js lines 524-530. *)
Definition closeSolution (d : document) : document :=
  mkDom (navButtons d) (previewItems d)
        (map (fun ke => if fullscreen (snd ke) && shown (snd ke)
                        then (fst ke, mkPanel (fullscreen (snd ke)) false)
                        else ke)
             (panels d))
        "auto".

(** A click on the [i]-th nav button runs its listeners one after the
    other. *)
Definition click_nav (i : nat) (d : document) : document :=
  match nth_error (navButtons d) i with
  | None => d
  | Some b => Nat.iter (listeners b) (on_nav_click i) d
  end.

(** A click on the [j]-th preview item. *)
Definition click_preview (j : nat) (d : document) : document :=
  match nth_error (previewItems d) j with
  | None => d
  | Some it => Nat.iter (item_listeners it) (on_preview_click j) d
  end.

(** A page with two solutions. *)
Definition sample_document : document :=
  mkDom [mkNavButton true (Some "water"%string) 0; mkNavButton false (Some "air"%string) 0]
        [mkPreviewItem (Some "air"%string) 0]
        [("water-solution"%string, mkPanel true false);
         ("air-solution"%string, mkPanel true false)]
        "auto".

End Solutions.

(** * Properties *)

(** ** The projection *)

Module ProjectorTheory.
Import Projector.

Lemma latLonToVector3_spec_project (lat lon radius : R) :
  latLonToVector3 lat lon radius = spec_project lat lon radius.
Proof.
  unfold latLonToVector3, spec_project, spec_phi, spec_theta.
  replace ((90 - lat) * PI / 180) with ((90 - lat) * (PI / 180)) by (unfold Rdiv; ring).
  replace ((lon + 180) * PI / 180) with ((lon + 180) * (PI / 180)) by (unfold Rdiv; ring).
  f_equal; ring.
Qed.

Lemma norm2_latLonToVector3 (lat lon radius : R) :
  norm2 (latLonToVector3 lat lon radius) = radius * radius.
Proof.
  unfold norm2, latLonToVector3; cbn [vx vy vz].
  set (phi := (90 - lat) * (PI / 180)).
  set (theta := (lon + 180) * (PI / 180)).
  pose proof (sin2_cos2 phi) as Hp.
  pose proof (sin2_cos2 theta) as Ht.
  unfold Rsqr in Hp, Ht.
  replace (- radius * sin phi * cos theta * (- radius * sin phi * cos theta)
           + radius * cos phi * (radius * cos phi)
           + radius * sin phi * sin theta * (radius * sin phi * sin theta))
    with (radius * radius *
          (sin phi * sin phi * (sin theta * sin theta + cos theta * cos theta)
           + cos phi * cos phi)) by ring.
  rewrite Ht, Rmult_1_r, Hp. ring.
Qed.

Lemma length_latLonToVector3 (lat lon radius : R) :
  0 <= radius -> length (latLonToVector3 lat lon radius) = radius.
Proof.
  intros Hr. unfold length. rewrite norm2_latLonToVector3.
  apply sqrt_square, Hr.
Qed.

(** C2. For a latitude in [-90,90], a longitude in [-180,180] and a positive
    radius, [latLonToVector3] returns the point the specification describes:
    with [phi = (90 - latitude) * pi / 180] and
    [theta = (longitude + 180) * pi / 180], its components are
    [x = - radius * sin phi * cos theta], [y = radius * cos phi] and
    [z = radius * sin phi * sin theta]. *)
Theorem latLonToVector3_formula (latitude longitude radius : R) :
  -90 <= latitude <= 90 ->
  -180 <= longitude <= 180 ->
  0 < radius ->
  let phi := (90 - latitude) * PI / 180 in
  let theta := (longitude + 180) * PI / 180 in
  latLonToVector3 latitude longitude radius = spec_project latitude longitude radius
  /\ vx (latLonToVector3 latitude longitude radius) = - (radius * sin phi * cos theta)
  /\ vy (latLonToVector3 latitude longitude radius) = radius * cos phi
  /\ vz (latLonToVector3 latitude longitude radius) = radius * sin phi * sin theta.
Proof.
  intros _ _ _ phi theta.
  rewrite latLonToVector3_spec_project.
  repeat split.
Qed.

Lemma latLonToVector3_formula_witness :
  (-90 <= 45 <= 90 /\ -180 <= 30 <= 180 /\ 0 < 200)
  /\ vy (latLonToVector3 45 30 200) = 200 * cos ((90 - 45) * PI / 180).
Proof.
  split; [lra|].
  apply (latLonToVector3_formula 45 30 200); lra.
Defined.

(** C8. For a latitude in [-90,90], a longitude in [-180,180] and a positive
    radius [r], the point [latLonToVector3] returns satisfies
    [x^2 + y^2 + z^2 = r^2], and its Euclidean distance from the origin is
    [r]. *)
Theorem latLonToVector3_on_sphere (latitude longitude r : R) :
  -90 <= latitude <= 90 ->
  -180 <= longitude <= 180 ->
  0 < r ->
  let p := latLonToVector3 latitude longitude r in
  (vx p)^2 + (vy p)^2 + (vz p)^2 = r^2 /\ length p = r.
Proof.
  intros _ _ Hr p. split.
  - pose proof (norm2_latLonToVector3 latitude longitude r) as H.
    unfold norm2 in H. fold p in H. simpl. rewrite !Rmult_1_r. exact H.
  - apply length_latLonToVector3. lra.
Qed.

Lemma latLonToVector3_on_sphere_witness :
  (-90 <= 45 <= 90 /\ -180 <= 30 <= 180 /\ 0 < 200)
  /\ length (latLonToVector3 45 30 200) = 200.
Proof.
  split; [lra|].
  apply (latLonToVector3_on_sphere 45 30 200); lra.
Defined.

End ProjectorTheory.

(** ** The rotation of the layers *)

Module RotationTheory.
Import Rotation.

Lemma or_zero_id (v : R) : or_zero v = v.
Proof.
  unfold or_zero. destruct (Req_dec_T v 0) as [E|_]; [symmetry; exact E | reflexivity].
Qed.

Lemma delta_eq (t : R) (s : globe) : delta t s = (t - lastTime s) / 1000.
Proof. apply or_zero_id. Qed.

Lemma copy_id (r : Euler.t) : Euler.copy r = r.
Proof. destruct r; reflexivity. Qed.

(** A frame keeps the borders on the Earth mesh when they were on it. *)
Lemma animate_borders (t : R) (s : globe) :
  bordersGroup s = earthMesh s ->
  bordersGroup (animate t s) = earthMesh (animate t s).
Proof.
  intros H. unfold animate; cbn [bordersGroup earthMesh]. rewrite H.
  reflexivity.
Qed.

(** A pointer move during a drag puts both layers on the Earth mesh. *)
Lemma pointermove_synced (cx cy : R) (s : globe) :
  isDragging s = true -> synced (pointermove cx cy s).
Proof.
  intros H. unfold pointermove, synced. rewrite H; cbn.
  split; reflexivity.
Qed.

Lemma step_borders (s : globe) (e : event) :
  bordersGroup s = earthMesh s ->
  bordersGroup (step s e) = earthMesh (step s e).
Proof.
  intros H. destruct e as [t|cx cy| |cx cy]; cbn [step].
  - apply animate_borders, H.
  - exact H.
  - exact H.
  - destruct (isDragging s) eqn:D.
    + apply (pointermove_synced cx cy s D).
    + unfold pointermove. rewrite D. exact H.
Qed.

Lemma run_borders (events : list event) :
  forall s, bordersGroup s = earthMesh s ->
            bordersGroup (run events s) = earthMesh (run events s).
Proof.
  induction events as [|e events IH]; intros s H; cbn.
  - exact H.
  - apply IH, step_borders, H.
Qed.

Lemma animate_earth_yaw (t : R) (s : globe) :
  Euler.y (earthMesh (animate t s)) = Euler.y (earthMesh s) + 0.08 * delta t s.
Proof. reflexivity. Qed.

Lemma animate_cloud_yaw (t : R) (s : globe) :
  Euler.y (cloudMesh (animate t s)) = Euler.y (cloudMesh s) + 0.095 * delta t s.
Proof. reflexivity. Qed.

(** What the two handlers do to the layers. From the initial state and
    after any finite sequence of frames and pointer events, the borders
    group has the orientation of the Earth mesh, and keeps it through the
    next frame; a pointer move during a drag copies the orientation of the
    Earth mesh to the cloud mesh and to the borders group; a frame copies
    the yaw to the borders group only, and adds [0.095 * delta] to the yaw
    of the cloud mesh where it adds [0.08 * delta] to that of the Earth
    mesh. *)
Theorem layers_after_events (events : list event) :
  let s := run events initial in
  bordersGroup s = earthMesh s
  /\ (forall clientX clientY,
        isDragging s = true -> synced (pointermove clientX clientY s))
  /\ (forall t,
        bordersGroup (animate t s) = earthMesh (animate t s)
        /\ Euler.y (cloudMesh (animate t s)) = Euler.y (cloudMesh s) + 0.095 * delta t s
        /\ Euler.y (earthMesh (animate t s)) = Euler.y (earthMesh s) + 0.08 * delta t s).
Proof.
  intros s.
  assert (Hb : bordersGroup s = earthMesh s) by (apply run_borders; reflexivity).
  split; [exact Hb|]. split.
  - intros cx cy D. apply pointermove_synced, D.
  - intros t. split; [apply animate_borders, Hb|].
    split; [apply animate_cloud_yaw | apply animate_earth_yaw].
Qed.

Lemma layers_after_events_witness :
  isDragging (run [Frame 16; PointerDown 100 100] initial) = true
  /\ synced (pointermove 150 130 (run [Frame 16; PointerDown 100 100] initial)).
Proof.
  split; [reflexivity|].
  apply (layers_after_events [Frame 16; PointerDown 100 100]). reflexivity.
Defined.

(** C1. After every frame callback the cloud mesh should have the
    orientation of the Earth mesh, as the comment of [animate] says
    ("Synchronize rotation of all elements on Y axis") and as the pointer
    move handler does by copying the rotation to the cloud mesh. [animate]
    does not: after a first frame at timestamp 0 all layers are on the
    orientation of the Earth mesh; the next frame, at timestamp 1000, is a
    synchronizing call, and it leaves the cloud mesh at yaw 0.095 while the
    Earth mesh is at yaw 0.08. *)
Lemma frame_leaves_clouds_ahead :
  synced (run [Frame 0] initial)
  /\ synchronizing (run [Frame 0] initial) (Frame 1000) = true
  /\ Euler.y (earthMesh (run [Frame 0; Frame 1000] initial)) = 0.08
  /\ Euler.y (cloudMesh (run [Frame 0; Frame 1000] initial)) = 0.095
  /\ ~ synced (run [Frame 0; Frame 1000] initial).
Proof.
  assert (He : Euler.y (earthMesh (run [Frame 0; Frame 1000] initial)) = 0.08).
  { cbn [run fold_left step].
    rewrite !animate_earth_yaw, !delta_eq. cbn. lra. }
  assert (Hc : Euler.y (cloudMesh (run [Frame 0; Frame 1000] initial)) = 0.095).
  { cbn [run fold_left step].
    rewrite !animate_cloud_yaw, !delta_eq. cbn. lra. }
  split.
  { cbn [run fold_left step]. unfold synced, animate. rewrite or_zero_id. cbn.
    split; f_equal; lra. }
  split; [reflexivity|].
  split; [exact He|]. split; [exact Hc|].
  intros [H _]. rewrite H in Hc. lra.
Qed.

(** C3, as the script has it. [lastTime] starts at 0. Every frame callback,
    the first included, advances the yaw of the Earth mesh by
    [0.08 * (t - lastTime) / 1000] and stores [t] as [lastTime]; the first
    callback therefore advances the yaw by [0.08 * t / 1000]. *)
Theorem animate_yaw (t : R) (s : globe) :
  lastTime initial = 0
  /\ Euler.y (earthMesh (animate t s))
     = Euler.y (earthMesh s) + 0.08 * ((t - lastTime s) / 1000)
  /\ lastTime (animate t s) = t
  /\ Euler.y (earthMesh (animate t initial))
     = Euler.y (earthMesh initial) + 0.08 * (t / 1000).
Proof.
  split; [reflexivity|]. split; [|split; [reflexivity|]].
  - rewrite animate_earth_yaw, delta_eq. reflexivity.
  - rewrite animate_earth_yaw, delta_eq. cbn. f_equal. f_equal. lra.
Qed.

(** C3 fails as stated: the first frame callback, at timestamp 1000, moves
    the yaw of the Earth mesh from 0 to 0.08. *)
Lemma first_frame_advances_yaw :
  Euler.y (earthMesh initial) = 0
  /\ Euler.y (earthMesh (animate 1000 initial)) = 0.08
  /\ Euler.y (earthMesh (animate 1000 initial)) <> Euler.y (earthMesh initial).
Proof.
  assert (H : Euler.y (earthMesh (animate 1000 initial)) = 0.08).
  { rewrite animate_earth_yaw, delta_eq. cbn. lra. }
  split; [reflexivity|]. split; [exact H|]. rewrite H. cbn. lra.
Qed.

(** A drag from one pointer position to another. *)
Lemma drag_rotation (x0 y0 x1 y1 : R) (s : globe) :
  let s' := pointermove x1 y1 (pointerdown x0 y0 s) in
  Euler.y (earthMesh s') = Euler.y (earthMesh s) + (x1 - x0) * rotationSpeed
  /\ Euler.x (earthMesh s') = Euler.x (earthMesh s) + (y1 - y0) * rotationSpeed * 0.5
  /\ synced s'.
Proof.
  cbn. repeat split.
Qed.

(** C7. From any state, a pointer-down at (100,100) followed by a
    pointer-move to (150,130) increases the yaw of the Earth mesh by
    [50 * 0.005 = 0.25] and its pitch by [30 * 0.005 * 0.5 = 0.075], and
    leaves the cloud mesh and the borders group with the orientation of the
    Earth mesh. *)
Theorem drag_50_30 (s : globe) :
  let s' := pointermove 150 130 (pointerdown 100 100 s) in
  rotationSpeed = 0.005
  /\ Euler.y (earthMesh s') = Euler.y (earthMesh s) + 0.25
  /\ Euler.x (earthMesh s') = Euler.x (earthMesh s) + 0.075
  /\ cloudMesh s' = earthMesh s'
  /\ bordersGroup s' = earthMesh s'.
Proof.
  intros s'.
  destruct (drag_rotation 100 100 150 130 s) as (Hy & Hx & Hc & Hb).
  fold s' in Hy, Hx, Hc, Hb.
  split; [reflexivity|].
  split; [rewrite Hy; unfold rotationSpeed; lra|].
  split; [rewrite Hx; unfold rotationSpeed; lra|].
  split; assumption.
Qed.

End RotationTheory.

(** ** Navigation *)

Module NavigationTheory.
Import Navigation.

Lemma strict_eq_true (v : jsvalue) (s : string) :
  strict_eq v s = true -> v = Str s.
Proof.
  destruct v as [t|t]; cbn; [|discriminate].
  intros H. apply String.eqb_eq in H. now subst.
Qed.

(** C9. For every value of [option] and every page, [handleQuiz(option)]
    does what [showSection(option)] does. *)
Theorem handleQuiz_showSection (option : jsvalue) (p : page) :
  handleQuiz option p = showSection option p.
Proof.
  unfold handleQuiz.
  destruct (strict_eq option "correct") eqn:E; [|reflexivity].
  apply strict_eq_true in E. now subst.
Qed.

End NavigationTheory.

(** ** The border renderer *)

Module BordersTheory.
Import Projector Json Borders.

Section Renderer.

Variable converted : value -> value -> R -> completion Vector3.


Lemma added_nil (w : world) : added [] w = w.
Proof. destruct w; unfold added; cbn. now rewrite app_nil_r. Qed.

Lemma added_app (l1 l2 : list LineLoop) (w : world) :
  added l2 (added l1 w) = added (l1 ++ l2) w.
Proof. unfold added; cbn. now rewrite app_assoc. Qed.

Lemma forEach_app (body : json -> M unit) (xs ys : list json) (w : world) :
  forEach (xs ++ ys) body w = (forEach xs body ;;; forEach ys body) w.
Proof.
  revert w. induction xs as [|x xs IH]; intros w.
  - reflexivity.
  - cbn [app forEach]. unfold bind in *.
    destruct (body x w) as [[[]|e] w1]; [apply IH | reflexivity].
Qed.

(** A body that completes normally and writes nothing can be dropped. *)
Lemma forEach_skip (body : json -> M unit) (x : json) (xs : list json) (w : world) :
  body x w = (Normal tt, w) -> forEach (x :: xs) body w = forEach xs body w.
Proof. intros H. cbn. unfold bind. now rewrite H. Qed.

Lemma ring_points_positions (r : list (R * R)) (radius : R) :
  ring_points converted (map position r) radius
  = Normal (map (fun p => latLonToVector3 (snd p) (fst p) (radius + 0.5)) r).
Proof.
  induction r as [|[lon lat] r IH]; cbn; [reflexivity|].
  cbn in IH. rewrite IH. reflexivity.
Qed.

Lemma draw_ring_ring (r : list (R * R)) (w : world) :
  draw_ring converted borderMaterial EARTH_RADIUS (ring r) w = (Normal tt, added [border_of r] w).
Proof.
  unfold Borders.draw_ring, ring; cbn [as_array].
  unfold bind, lift. rewrite ring_points_positions. reflexivity.
Qed.

Lemma forEach_rings (rings : list (list (R * R))) (w : world) :
  forEach (map ring rings) (draw_ring converted borderMaterial EARTH_RADIUS) w
  = (Normal tt, added (map border_of rings) w).
Proof.
  revert w. induction rings as [|r rings IH]; intros w.
  - cbn. now rewrite added_nil.
  - cbn [map forEach]. unfold bind. rewrite draw_ring_ring, IH, added_app.
    reflexivity.
Qed.

(** The first position of a ring is no number, so a polygon is taken as a
    list of rings. *)
Lemma drawCountryLine_polygon (rings : list (list (R * R))) (w : world) :
  drawCountryLine converted (Some (polygon rings)) borderMaterial EARTH_RADIUS w
  = (Normal tt, added (map border_of rings) w).
Proof.
  destruct rings as [|r rings].
  - cbn. now rewrite added_nil.
  - unfold Borders.drawCountryLine, polygon. cbn [as_array map].
    unfold bind at 1, lift.
    assert (E : is_number (nth_error (map position r) 0) = false)
      by (destruct r; reflexivity).
    cbn [get_index0 ring]. rewrite E.
    apply (forEach_rings (r :: rings)).
Qed.

(** The first item of a position is a number, so a bare ring that is not
    empty is taken as one ring. *)
Lemma drawCountryLine_ring (r : list (R * R)) (w : world) :
  r <> [] ->
  drawCountryLine converted (Some (ring r)) borderMaterial EARTH_RADIUS w
  = (Normal tt, added [border_of r] w).
Proof.
  intros Hr. destruct r as [|p r]; [contradiction|].
  unfold Borders.drawCountryLine, ring. cbn [as_array map].
  unfold bind at 1, lift. cbn [get_index0 position nth_error is_number forEach].
  unfold bind. rewrite (draw_ring_ring (p :: r)). reflexivity.
Qed.

Lemma forEach_polygons (polys : list (list (list (R * R)))) (w : world) :
  forEach (map polygon polys)
          (fun poly => drawCountryLine converted (Some poly) borderMaterial EARTH_RADIUS) w
  = (Normal tt, added (map border_of (List.concat polys)) w).
Proof.
  revert w. induction polys as [|rings polys IH]; intros w.
  - cbn. now rewrite added_nil.
  - cbn [map forEach List.concat]. unfold bind.
    rewrite drawCountryLine_polygon, IH, added_app, map_app. reflexivity.
Qed.

Lemma draw_feature_multipolygon (coordinates : json) (w : world) :
  draw_feature converted (feature "MultiPolygon" coordinates) w
  = value_forEach (Some coordinates)
      (fun poly => drawCountryLine converted (Some poly) borderMaterial EARTH_RADIUS) w.
Proof. reflexivity. Qed.

Lemma draw_feature_polygon (coordinates : json) (w : world) :
  draw_feature converted (feature "Polygon" coordinates) w
  = drawCountryLine converted (Some coordinates) borderMaterial EARTH_RADIUS w.
Proof. reflexivity. Qed.

Lemma draw_features_collection (features : list json) (w : world) :
  draw_features converted (featureCollection features) w
  = forEach features (draw_feature converted) w.
Proof. reflexivity. Qed.

Lemma draw_feature_missing (f : json) (w : world) :
  geometry_missing f = true -> draw_feature converted f w = (Normal tt, w).
Proof.
  destruct f as [| | | | |fields]; try discriminate. cbn [geometry_missing].
  intros H. unfold Borders.draw_feature, bind, lift. cbn [get_prop].
  destruct (lookup "geometry" fields) as [[]|]; try discriminate; reflexivity.
Qed.

Lemma draw_feature_unrecognized (f : json) (w : world) :
  geometry_unrecognized f = true -> draw_feature converted f w = (Normal tt, w).
Proof.
  destruct f as [| | | | |fields]; try discriminate. cbn [geometry_unrecognized].
  intros H. unfold Borders.draw_feature, bind, lift. cbn [get_prop].
  destruct (lookup "geometry" fields) as [[| | | | |geom]|]; try discriminate.
  cbn [truthy negb get_prop].
  apply andb_prop in H. destruct H as [H1 H2].
  apply negb_true_iff in H1, H2. rewrite H1, H2. reflexivity.
Qed.

(** C4. A MultiPolygon feature whose coordinates hold two rings of four
    coordinate pairs each - in polygons of any grouping, or as two bare
    rings - makes the renderer add exactly two line loops to the borders
    group; each has four vertices, and every vertex is the projection of its
    coordinate pair at the Earth radius plus the offset, [200 + 0.5]. *)
Theorem multipolygon_two_rings
    (r1 r2 : list (R * R)) (polys : list (list (list (R * R)))) :
  List.length r1 = 4%nat ->
  List.length r2 = 4%nat ->
  List.concat polys = [r1; r2] ->
  let loop1 := mkLineLoop
    (map (fun p => latLonToVector3 (snd p) (fst p) (200 + 0.5)) r1) borderMaterial in
  let loop2 := mkLineLoop
    (map (fun p => latLonToVector3 (snd p) (fst p) (200 + 0.5)) r2) borderMaterial in
  draw_features converted
    (featureCollection [feature "MultiPolygon" (multipolygon polys)]) initial_world
  = (Normal tt, mkWorld [loop1; loop2] [])
  /\ draw_features converted
       (featureCollection [feature "MultiPolygon" (JArr [ring r1; ring r2])]) initial_world
     = (Normal tt, mkWorld [loop1; loop2] [])
  /\ List.length (points loop1) = 4%nat
  /\ List.length (points loop2) = 4%nat.
Proof.
  intros H1 H2 Hc loop1 loop2.
  assert (N1 : r1 <> []) by (intros E; rewrite E in H1; discriminate).
  assert (N2 : r2 <> []) by (intros E; rewrite E in H2; discriminate).
  repeat split.
  - rewrite draw_features_collection. cbn [forEach]. unfold bind at 1.
    rewrite draw_feature_multipolygon. unfold value_forEach, multipolygon.
    cbn [as_array]. rewrite forEach_polygons, Hc. reflexivity.
  - rewrite draw_features_collection. cbn [forEach]. unfold bind at 1.
    rewrite draw_feature_multipolygon. unfold value_forEach.
    cbn [as_array forEach]. unfold bind.
    rewrite (drawCountryLine_ring r1 _ N1), (drawCountryLine_ring r2 _ N2).
    reflexivity.
  - cbn [points loop1]. now rewrite length_map.
  - cbn [points loop2]. now rewrite length_map.
Qed.

(** C5. A feature whose geometry is null or missing, or whose geometry type
    is neither ["Polygon"] nor ["MultiPolygon"], adds nothing to the borders
    group and raises nothing; the features after it are processed as if it
    were not there, and so is the whole sequence. *)
Theorem unsupported_feature_skipped
    (f : json) (before after : list json) (w : world) :
  geometry_missing f || geometry_unrecognized f = true ->
  draw_feature converted f w = (Normal tt, w)
  /\ forEach (f :: after) (draw_feature converted) w
     = forEach after (draw_feature converted) w
  /\ draw_features converted (featureCollection (before ++ f :: after)) w
     = draw_features converted (featureCollection (before ++ after)) w.
Proof.
  intros H.
  assert (Hskip : forall w', draw_feature converted f w' = (Normal tt, w')).
  { intros w'. apply orb_prop in H. destruct H as [H|H].
    - apply draw_feature_missing, H.
    - apply draw_feature_unrecognized, H. }
  split; [apply Hskip|]. split.
  - apply forEach_skip, Hskip.
  - rewrite !draw_features_collection, !forEach_app. unfold bind.
    destruct (forEach before (draw_feature converted) w) as [[[]|e] w1];
      [|reflexivity].
    apply forEach_skip, Hskip.
Qed.

(** C6. When the fetch fails - a transport error, or a response whose status
    is not in 200-299 - the chain completes normally, logs exactly one
    warning, and leaves the borders group as it was: empty, from the initial
    world. *)
Theorem failed_fetch_warns_once (outcome : fetch_result) (w : world) :
  fetch_failed outcome = true ->
  exists err,
    load_borders converted outcome w
    = (Normal tt,
       mkWorld (bordersGroup w)
               (console w ++ [mkWarning "Could not load or draw country borders:" err]))
    /\ load_borders converted outcome initial_world
       = (Normal tt,
          mkWorld [] [mkWarning "Could not load or draw country borders:" err]).
Proof.
  intros H. destruct outcome as [|status body].
  - exists NetworkFailure. split; reflexivity.
  - cbn [fetch_failed] in H.
    exists (Error ("Failed to load GeoJSON: " ++ NilZero.string_of_int (Z.to_int status))).
    unfold Borders.load_borders, catch, bind, fetch, ret, check_response.
    rewrite H. split; reflexivity.
Qed.

(** C10. Called with coordinates that are not an array, or with an empty
    array, [drawCountryLine] returns normally and leaves the world as it
    was. Only for a non-empty array does it go on to read [coords[0][0]],
    where [coords[0]] is the first item of that array. *)
Theorem drawCountryLine_guard
    (coords : value) (mat : LineBasicMaterial) (radius : R) (w : world) :
  (not_array_or_empty coords = true ->
   drawCountryLine converted coords mat radius w = (Normal tt, w))
  /\ (not_array_or_empty coords = false ->
      exists first others,
        coords = Some (JArr (first :: others))
        /\ drawCountryLine converted coords mat radius w
           = (first0 <- lift (get_index0 (Some first)) ;;
              forEach (if is_number first0 then [JArr (first :: others)]
                       else first :: others)
                      (draw_ring converted mat radius)) w).
Proof.
  split; intros H.
  - destruct coords as [[| | | |[|first others]|]|]; try discriminate; reflexivity.
  - destruct coords as [[| | | |[|first others]|]|]; try discriminate.
    exists first, others. split; reflexivity.
Qed.

End Renderer.

Lemma multipolygon_two_rings_witness :
  (List.length square = 4%nat /\ List.length kite = 4%nat
   /\ List.concat [[square]; [kite]] = [square; kite])
  /\ draw_features no_conversion
       (featureCollection
          [feature "MultiPolygon" (multipolygon [[square]; [kite]])])
       initial_world
     = (Normal tt,
        mkWorld
          [mkLineLoop (map (fun p => latLonToVector3 (snd p) (fst p) (200 + 0.5)) square)
                      borderMaterial;
           mkLineLoop (map (fun p => latLonToVector3 (snd p) (fst p) (200 + 0.5)) kite)
                      borderMaterial]
          []).
Proof.
  split; [repeat split|].
  apply (multipolygon_two_rings no_conversion square kite
           [[square]; [kite]]); reflexivity.
Defined.

Lemma unsupported_feature_skipped_witness :
  geometry_missing (JObj [("geometry"%string, JNull)])
  || geometry_unrecognized (JObj [("geometry"%string, JNull)]) = true
  /\ draw_features no_conversion
       (featureCollection
          ([feature "Polygon" (polygon [square])]
           ++ JObj [("geometry"%string, JNull)]
           :: [feature "Polygon" (polygon [kite])]))
       initial_world
     = draw_features no_conversion
         (featureCollection
            ([feature "Polygon" (polygon [square])]
             ++ [feature "Polygon" (polygon [kite])]))
         initial_world.
Proof.
  split; [reflexivity|].
  apply (unsupported_feature_skipped no_conversion
           (JObj [("geometry"%string, JNull)])
           [feature "Polygon" (polygon [square])]
           [feature "Polygon" (polygon [kite])]
           initial_world).
  reflexivity.
Defined.

Lemma failed_fetch_warns_once_witness :
  fetch_failed (Resolved 500 None) = true
  /\ exists err,
       load_borders no_conversion (Resolved 500 None) initial_world
       = (Normal tt,
          mkWorld [] [mkWarning "Could not load or draw country borders:" err]).
Proof.
  split; [reflexivity|].
  destruct (failed_fetch_warns_once no_conversion (Resolved 500 None) initial_world)
    as [err [_ H]]; [reflexivity|].
  exists err. exact H.
Defined.

Lemma drawCountryLine_guard_witness :
  not_array_or_empty (Some (JArr [])) = true
  /\ drawCountryLine no_conversion (Some (JArr [])) borderMaterial EARTH_RADIUS initial_world
     = (Normal tt, initial_world).
Proof.
  split; [reflexivity|].
  apply (drawCountryLine_guard no_conversion (Some (JArr [])) borderMaterial
           EARTH_RADIUS initial_world).
  reflexivity.
Defined.

End BordersTheory.

(** * Further properties of the script *)

(** ** The projection in geographic terms *)

Module ProjectorProperties.
Import Projector.

(** Degrees to radians. *)
Lemma phi_colatitude (lat : R) :
  (90 - lat) * (PI / 180) = PI / 2 - lat * (PI / 180).
Proof. field. Qed.

Lemma theta_azimuth (lon : R) :
  (lon + 180) * (PI / 180) = lon * (PI / 180) + PI.
Proof. field. Qed.

(** The colatitude, the offset of 180 degrees and the sign of [x] amount to
    the usual geographic frame: [y] points to the north pole, [x] to
    latitude 0, longitude 0, and [z] to latitude 0, longitude 90 west. *)
Theorem latLonToVector3_geographic (lat lon radius : R) :
  latLonToVector3 lat lon radius
  = mkVector3 (radius * cos (lat * (PI / 180)) * cos (lon * (PI / 180)))
              (radius * sin (lat * (PI / 180)))
              (- (radius * cos (lat * (PI / 180)) * sin (lon * (PI / 180)))).
Proof.
  unfold latLonToVector3.
  rewrite phi_colatitude, theta_azimuth, sin_shift, cos_shift, neg_cos, neg_sin.
  f_equal; ring.
Qed.

(** A full turn in longitude gives the same point. *)
Theorem latLonToVector3_longitude_period (lat lon radius : R) :
  latLonToVector3 lat (lon + 360) radius = latLonToVector3 lat lon radius.
Proof.
  rewrite !latLonToVector3_geographic.
  replace ((lon + 360) * (PI / 180)) with (lon * (PI / 180) + PI + PI) by field.
  rewrite !neg_cos, !neg_sin. f_equal; ring.
Qed.

(** The point at the opposite latitude and at 180 degrees more of longitude
    is the opposite point of the sphere. *)
Theorem latLonToVector3_antipode (lat lon radius : R) :
  let p := latLonToVector3 lat lon radius in
  latLonToVector3 (- lat) (lon + 180) radius = mkVector3 (- vx p) (- vy p) (- vz p).
Proof.
  cbv zeta. rewrite !latLonToVector3_geographic. cbn [vx vy vz].
  replace (- lat * (PI / 180)) with (- (lat * (PI / 180))) by ring.
  replace ((lon + 180) * (PI / 180)) with (lon * (PI / 180) + PI) by field.
  rewrite cos_neg, sin_neg, neg_cos, neg_sin. f_equal; ring.
Qed.

(** At latitude 90 the point is the north pole [(0, radius, 0)], at
    latitude -90 the south pole, whatever the longitude. *)
Theorem latLonToVector3_poles (lon radius : R) :
  latLonToVector3 90 lon radius = mkVector3 0 radius 0
  /\ latLonToVector3 (-90) lon radius = mkVector3 0 (- radius) 0.
Proof.
  rewrite !latLonToVector3_geographic.
  replace (90 * (PI / 180)) with (PI / 2) by field.
  replace (-90 * (PI / 180)) with (- (PI / 2)) by field.
  rewrite cos_neg, sin_neg, cos_PI2, sin_PI2.
  split; f_equal; ring.
Qed.

End ProjectorProperties.

(** ** Loading and drawing the borders *)

Module BordersProperties.
Import Projector Json Borders.

Section Renderer.

Variable converted : value -> value -> R -> completion Vector3.

Lemma draw_feature_of (g : geometry) (w : world) :
  draw_feature converted (feature_of g) w
  = (Normal tt, added (map border_of (rings_of g)) w).
Proof.
  destruct g as [rings|polys]; cbn [feature_of rings_of].
  - rewrite BordersTheory.draw_feature_polygon.
    apply BordersTheory.drawCountryLine_polygon.
  - rewrite BordersTheory.draw_feature_multipolygon.
    unfold value_forEach, multipolygon. cbn [as_array].
    apply BordersTheory.forEach_polygons.
Qed.

Lemma forEach_features_of (gs : list geometry) (w : world) :
  forEach (map feature_of gs) (draw_feature converted) w
  = (Normal tt, added (map border_of (List.concat (map rings_of gs))) w).
Proof.
  revert w. induction gs as [|g gs IH]; intros w.
  - cbn. now rewrite BordersTheory.added_nil.
  - cbn [map forEach List.concat]. unfold bind.
    rewrite draw_feature_of, IH, BordersTheory.added_app, map_app. reflexivity.
Qed.

Lemma load_borders_ok (status : Z) (geojson : json) (w : world) :
  ok status = true ->
  load_borders converted (Resolved status (Some geojson)) w
  = catch (draw_features converted geojson)
          (fun err => console_warn "Could not load or draw country borders:" err) w.
Proof.
  intros H. unfold load_borders, catch, bind, fetch, ret, check_response.
  rewrite H. reflexivity.
Qed.

Lemma load_borders_geometries (status : Z) (gs : list geometry) (w : world) :
  ok status = true ->
  load_borders converted
    (Resolved status (Some (featureCollection (map feature_of gs)))) w
  = (Normal tt, added (map border_of (List.concat (map rings_of gs))) w).
Proof.
  intros H. rewrite (load_borders_ok _ _ _ H). unfold catch.
  rewrite BordersTheory.draw_features_collection, forEach_features_of.
  reflexivity.
Qed.

(** A response with a status in 200-299 whose payload is a feature
    collection of well-formed Polygon and MultiPolygon features: the chain
    adds one line loop per ring, in the order of the data, logs nothing and
    completes normally. *)
Theorem load_borders_well_formed (status : Z) (gs : list geometry) (w : world) :
  ok status = true ->
  load_borders converted
    (Resolved status (Some (featureCollection (map feature_of gs)))) w
  = (Normal tt,
     mkWorld (bordersGroup w ++ map border_of (List.concat (map rings_of gs)))
             (console w)).
Proof.
  intros H. apply load_borders_geometries, H.
Qed.

(** Every vertex the renderer produces for well-formed data lies at
    distance [200.5] from the centre of the globe. *)
Theorem drawn_vertices_on_sphere (status : Z) (gs : list geometry) :
  ok status = true ->
  forall line p,
    In line (bordersGroup (snd (load_borders converted
               (Resolved status (Some (featureCollection (map feature_of gs))))
               initial_world))) ->
    In p (points line) ->
    Projector.length p = 200.5.
Proof.
  intros H line p Hl Hp.
  rewrite (load_borders_geometries _ _ _ H) in Hl. cbn in Hl.
  apply in_map_iff in Hl. destruct Hl as [r [<- _]].
  cbn [points border_of] in Hp. apply in_map_iff in Hp.
  destruct Hp as [[lon lat] [<- _]].
  rewrite ProjectorTheory.length_latLonToVector3; unfold EARTH_RADIUS; lra.
Qed.

(** A feature that throws stops the loop: the features after it are not
    drawn, whatever they are; what was drawn before stays, and the chain
    logs one warning and completes normally. *)
Theorem throwing_feature_aborts
    (status : Z) (before after : list json) (f : json) (e : exn) (w w1 w2 : world) :
  ok status = true ->
  forEach before (draw_feature converted) w = (Normal tt, w1) ->
  draw_feature converted f w1 = (Throw e, w2) ->
  load_borders converted
    (Resolved status (Some (featureCollection (before ++ f :: after)))) w
  = (Normal tt, mkWorld (bordersGroup w2) (console w2 ++ [load_warning e])).
Proof.
  intros H Hb Hf. rewrite (load_borders_ok _ _ _ H). unfold catch.
  rewrite BordersTheory.draw_features_collection, BordersTheory.forEach_app.
  unfold bind. rewrite Hb. cbn [forEach]. unfold bind. rewrite Hf.
  reflexivity.
Qed.

(** A response with a status in 200-299 whose body is not JSON, or whose
    JSON is not an object with a [features] array: one warning, nothing
    drawn, normal completion. *)
Theorem load_borders_without_features (status : Z) (body : option json) (w : world) :
  ok status = true ->
  match body with Some geojson => features_of geojson | None => None end = None ->
  exists err,
    load_borders converted (Resolved status body) w
    = (Normal tt, mkWorld (bordersGroup w) (console w ++ [load_warning err])).
Proof.
  intros H Hf. destruct body as [geojson|].
  - rewrite (load_borders_ok _ _ _ H). exists TypeError.
    unfold catch, draw_features, bind, lift, value_forEach.
    destruct geojson as [| | | | |fields]; try reflexivity.
    cbn [features_of] in Hf. cbn [get_prop]. rewrite Hf. reflexivity.
  - exists SyntaxError.
    unfold load_borders, catch, bind, fetch, ret, check_response.
    rewrite H. reflexivity.
Qed.

(** *** The chain only adds *)

Lemma appends_ret {A} (a : A) : appends (ret a).
Proof. intros w. exists []. cbn. now rewrite BordersTheory.added_nil. Qed.

Lemma appends_throw {A} (e : exn) : appends (@throw A e).
Proof. intros w. exists []. cbn. now rewrite BordersTheory.added_nil. Qed.

Lemma appends_lift {A} (c : completion A) : appends (lift c).
Proof. intros w. exists []. cbn. now rewrite BordersTheory.added_nil. Qed.

Lemma appends_add (line : LineLoop) : appends (add line).
Proof. intros w. exists [line]. reflexivity. Qed.

Lemma appends_bind {A B} (m : M A) (k : A -> M B) :
  appends m -> (forall a, appends (k a)) -> appends (bind m k).
Proof.
  intros Hm Hk w. unfold bind. destruct (Hm w) as [l1 E1].
  destruct (m w) as [[a|e] w1]; cbn [snd] in E1; subst w1.
  - destruct (Hk a (added l1 w)) as [l2 E2]. exists (l1 ++ l2).
    rewrite E2. apply BordersTheory.added_app.
  - exists l1. reflexivity.
Qed.

Lemma appends_forEach (body : json -> M unit) (items : list json) :
  (forall item, appends (body item)) -> appends (forEach items body).
Proof.
  intros Hb. induction items as [|item items IH]; cbn [forEach].
  - apply appends_ret.
  - apply appends_bind; [apply Hb | intros _; exact IH].
Qed.

Lemma appends_value_forEach (v : value) (body : json -> M unit) :
  (forall item, appends (body item)) -> appends (value_forEach v body).
Proof.
  intros Hb. unfold value_forEach. destruct (as_array v).
  - apply appends_forEach, Hb.
  - apply appends_throw.
Qed.

Lemma appends_draw_ring (mat : LineBasicMaterial) (radius : R) (r : json) :
  appends (draw_ring converted mat radius r).
Proof.
  unfold draw_ring. destruct (as_array (Some r)).
  - apply appends_bind; [apply appends_lift | intros; apply appends_add].
  - apply appends_throw.
Qed.

Lemma appends_drawCountryLine (coords : value) (mat : LineBasicMaterial) (radius : R) :
  appends (drawCountryLine converted coords mat radius).
Proof.
  unfold drawCountryLine. destruct (as_array coords) as [[|first others]|];
    try apply appends_ret.
  apply appends_bind; [apply appends_lift|]. intros first0.
  apply appends_forEach. intros; apply appends_draw_ring.
Qed.

Lemma appends_draw_feature (f : json) : appends (draw_feature converted f).
Proof.
  unfold draw_feature. apply appends_bind; [apply appends_lift|]. intros geom.
  destruct (negb (truthy geom)); [apply appends_ret|].
  apply appends_bind; [apply appends_lift|]. intros ty.
  destruct (strict_eq_string ty "Polygon").
  - apply appends_bind; [apply appends_lift|]. intros c.
    apply appends_drawCountryLine.
  - apply appends_bind; [apply appends_lift|]. intros ty'.
    destruct (strict_eq_string ty' "MultiPolygon"); [|apply appends_ret].
    apply appends_bind; [apply appends_lift|]. intros c.
    apply appends_value_forEach. intros; apply appends_drawCountryLine.
Qed.

Lemma appends_draw_features (geojson : json) : appends (draw_features converted geojson).
Proof.
  unfold draw_features. apply appends_bind; [apply appends_lift|]. intros fs.
  apply appends_value_forEach, appends_draw_feature.
Qed.

(** Whatever the fetch gives and whatever the payload holds, the chain
    completes normally (no rejection is left unhandled); it removes no line
    loop and no console entry, and it logs at most one warning. *)
Theorem load_borders_never_throws (outcome : fetch_result) (w : world) :
  exists lines warnings,
    load_borders converted outcome w
    = (Normal tt, mkWorld (bordersGroup w ++ lines) (console w ++ warnings))
    /\ (List.length warnings <= 1)%nat.
Proof.
  assert (Hm : appends (r <- fetch outcome ;;
                        geojson <- check_response r ;;
                        draw_features converted geojson)).
  { apply appends_bind.
    - destruct outcome; [apply appends_throw | apply appends_ret].
    - intros [status body]. apply appends_bind.
      + unfold check_response. destruct (negb (ok status)); [apply appends_throw|].
        destruct body; [apply appends_ret | apply appends_throw].
      + intros geojson. apply appends_draw_features. }
  unfold load_borders, catch. destruct (Hm w) as [lines E].
  destruct ((r <- fetch outcome ;; geojson <- check_response r ;;
             draw_features converted geojson) w) as [[[]|e] w1];
    cbn [snd] in E; subst w1.
  - exists lines, []. cbn. rewrite app_nil_r. split; [reflexivity | cbn; repeat constructor].
  - exists lines, [load_warning e]. cbn. split; [reflexivity | cbn; repeat constructor].
Qed.

End Renderer.

Lemma load_borders_well_formed_witness :
  ok 200 = true
  /\ load_borders no_conversion
       (Resolved 200 (Some (featureCollection
          (map feature_of [Polygon [square]; MultiPolygon [[kite]; [square]]]))))
       initial_world
     = (Normal tt, mkWorld [border_of square; border_of kite; border_of square] []).
Proof.
  split; [reflexivity|].
  apply (load_borders_well_formed no_conversion 200
           [Polygon [square]; MultiPolygon [[kite]; [square]]] initial_world).
  reflexivity.
Defined.

Lemma drawn_vertices_on_sphere_witness :
  ok 200 = true
  /\ Projector.length (latLonToVector3 0 0 (EARTH_RADIUS + 0.5)) = 200.5.
Proof.
  split; [reflexivity|].
  apply (drawn_vertices_on_sphere no_conversion 200 [Polygon [square]] eq_refl
           (border_of square)); left; reflexivity.
Defined.

Lemma throwing_feature_aborts_witness :
  (ok 200 = true
   /\ forEach [feature_of (Polygon [square])] (draw_feature no_conversion) initial_world
      = (Normal tt, mkWorld [border_of square] [])
   /\ draw_feature no_conversion (feature "Polygon" (JArr [JNull]))
        (mkWorld [border_of square] [])
      = (Throw TypeError, mkWorld [border_of square] []))
  /\ load_borders no_conversion
       (Resolved 200 (Some (featureCollection
          ([feature_of (Polygon [square])]
           ++ feature "Polygon" (JArr [JNull]) :: [feature_of (Polygon [kite])]))))
       initial_world
     = (Normal tt, mkWorld [border_of square] [load_warning TypeError]).
Proof.
  split; [repeat split|].
  apply (throwing_feature_aborts no_conversion 200
           [feature_of (Polygon [square])] [feature_of (Polygon [kite])]
           (feature "Polygon" (JArr [JNull])) TypeError
           initial_world (mkWorld [border_of square] []) (mkWorld [border_of square] []));
    reflexivity.
Defined.

Lemma load_borders_without_features_witness :
  (ok 200 = true /\ features_of (JObj [("message"%string, JStr "Not Found")]) = None)
  /\ exists err,
       load_borders no_conversion
         (Resolved 200 (Some (JObj [("message"%string, JStr "Not Found")]))) initial_world
       = (Normal tt, mkWorld [] [load_warning err]).
Proof.
  split; [split; reflexivity|].
  destruct (load_borders_without_features no_conversion 200
              (Some (JObj [("message"%string, JStr "Not Found")])) initial_world)
    as [err H]; [reflexivity | reflexivity |].
  exists err. exact H.
Defined.

End BordersProperties.

(** ** Drag sessions and idle rotation *)

Module RotationProperties.
Import Rotation.

Lemma animate_fields (t : R) (s : globe) :
  Euler.x (earthMesh (animate t s)) = Euler.x (earthMesh s)
  /\ Euler.y (earthMesh (animate t s))
     = Euler.y (earthMesh s) + 0.08 * ((t - lastTime s) / 1000)
  /\ Euler.y (cloudMesh (animate t s))
     = Euler.y (cloudMesh s) + 0.095 * ((t - lastTime s) / 1000)
  /\ lastTime (animate t s) = t
  /\ isDragging (animate t s) = isDragging s
  /\ previousMousePosition (animate t s) = previousMousePosition s.
Proof.
  unfold animate; cbn. rewrite RotationTheory.or_zero_id. repeat split.
Qed.

(** During a drag session, frames and pointer moves in any order: the yaw
    of the Earth mesh changes by 0.08 per second of frame time plus 0.005
    per pixel between the first and the last pointer position, the pitch by
    0.0025 per pixel; the path of the pointer in between plays no part. *)
Theorem drag_session (events : list event) (s : globe) :
  isDragging s = true ->
  frames_and_moves events = true ->
  let s' := run events s in
  isDragging s' = true
  /\ Euler.y (earthMesh s')
     = Euler.y (earthMesh s)
       + 0.08 * ((lastTime s' - lastTime s) / 1000)
       + (Point.x (previousMousePosition s') - Point.x (previousMousePosition s)) * 0.005
  /\ Euler.x (earthMesh s')
     = Euler.x (earthMesh s)
       + (Point.y (previousMousePosition s') - Point.y (previousMousePosition s))
         * 0.005 * 0.5.
Proof.
  revert s. induction events as [|e events IH]; intros s D F; cbn zeta.
  - cbn [run fold_left]. split; [exact D|]. split; lra.
  - cbn [frames_and_moves forallb] in F. apply andb_prop in F. destruct F as [Fe F].
    cbn [run fold_left].
    destruct e as [t|cx cy| |cx cy]; try discriminate; cbn [step].
    + destruct (animate_fields t s) as (Hx & Hy & _ & Ht & Hd & Hp).
      destruct (IH (animate t s)) as (D' & Y & X); [now rewrite Hd | exact F |].
      fold (run events (animate t s)) in *.
      split; [exact D'|]. rewrite Y, X, Hx, Hy, Ht, Hp. split; lra.
    + assert (E : pointermove cx cy s
                  = mkGlobe
                      (Euler.set_x
                         (Euler.x (earthMesh s)
                          + (cy - Point.y (previousMousePosition s)) * rotationSpeed * 0.5)
                         (Euler.set_y
                            (Euler.y (earthMesh s)
                             + (cx - Point.x (previousMousePosition s)) * rotationSpeed)
                            (earthMesh s)))
                      (cloudMesh (pointermove cx cy s))
                      (bordersGroup (pointermove cx cy s))
                      (lastTime s) true (Point.mk cx cy)).
      { unfold pointermove. rewrite D. reflexivity. }
      destruct (IH (pointermove cx cy s)) as (D' & Y & X);
        [rewrite E; reflexivity | exact F |].
      fold (run events (pointermove cx cy s)) in *.
      split; [exact D'|]. rewrite Y, X, E. cbn. unfold rotationSpeed. split; lra.
Qed.


Lemma drag_session_witness :
  (isDragging (pointerdown 100 100 initial) = true
   /\ frames_and_moves [PointerMove 120 90; Frame 500; PointerMove 150 130] = true)
  /\ Euler.x (earthMesh (run [PointerMove 120 90; Frame 500; PointerMove 150 130]
                             (pointerdown 100 100 initial)))
     = Euler.x (earthMesh (pointerdown 100 100 initial))
       + (Point.y (previousMousePosition
                     (run [PointerMove 120 90; Frame 500; PointerMove 150 130]
                          (pointerdown 100 100 initial)))
          - Point.y (previousMousePosition (pointerdown 100 100 initial)))
         * 0.005 * 0.5.
Proof.
  split; [split; reflexivity|].
  apply (drag_session [PointerMove 120 90; Frame 500; PointerMove 150 130]
           (pointerdown 100 100 initial)); reflexivity.
Defined.


End RotationProperties.

(** ** Navigation between sections *)

Module NavigationProperties.
Import Navigation PageLoad Timers.

(** The tests of step 1.3 only register timers; step 1.4 is reached
    unless the target is ['correct_metrics']. *)
Lemma showSection_fields (t : jsvalue) (p : page) :
  let q := show_new t (hide_current (console_log "Navigating to:" t p)) in
  currentSectionId (snd (showSection t p)) = currentSectionId q
  /\ elements (snd (showSection t p)) = elements q
  /\ log (snd (showSection t p)) = log q
  /\ history (snd (showSection t p))
     = (if pushes t then history q ++ [("#" ++ to_text t)%string] else history q)
  /\ fst (showSection t p)
     = (if pushes t then Returned else ReferenceError "initializeChart").
Proof.
  unfold showSection, when, pushes.
  repeat match goal with |- context [strict_eq t ?n] => destruct (strict_eq t n) end;
    repeat split.
Qed.

Lemma hide_current_fields (p : page) :
  currentSectionId (hide_current p) = currentSectionId p
  /\ log (hide_current p) = log p
  /\ history (hide_current p) = history p.
Proof.
  unfold hide_current. destruct (elements p (to_text (currentSectionId p)));
    repeat split.
Qed.

Lemma show_new_fields (t : jsvalue) (p : page) :
  log (show_new t p) = log p /\ history (show_new t p) = history p.
Proof. unfold show_new. destruct (elements p (to_text t)); split; reflexivity. Qed.

Lemma showSection_history (t : jsvalue) (p : page) :
  history (snd (showSection t p))
  = (if pushes t then history p ++ [("#" ++ to_text t)%string] else history p).
Proof.
  destruct (showSection_fields t p) as (_ & _ & _ & H & _). rewrite H.
  destruct (show_new_fields t (hide_current (console_log "Navigating to:" t p))) as [_ ->].
  destruct (hide_current_fields (console_log "Navigating to:" t p)) as (_ & _ & ->).
  reflexivity.
Qed.

Lemma showSection_log (t : jsvalue) (p : page) :
  log (snd (showSection t p)) = log p ++ [("Navigating to:"%string, t)].
Proof.
  destruct (showSection_fields t p) as (_ & _ & H & _). rewrite H.
  destruct (show_new_fields t (hide_current (console_log "Navigating to:" t p))) as [-> _].
  destruct (hide_current_fields (console_log "Navigating to:" t p)) as (_ & -> & _).
  reflexivity.
Qed.

(** Every call of [showSection] logs one line, whether or not the target
    exists and whether or not it is the section already shown. It pushes
    one history entry ["#" ++ target], except for the target
    ['correct_metrics'], where the call throws a [ReferenceError] before it
    reaches [history.pushState]. After a series of navigations the log
    holds one line per call and the history one entry per call to another
    target, in order. *)
Theorem navigate_history (targets : list jsvalue) (p : page) :
  history (navigate targets p)
  = history p ++ map (fun t => ("#" ++ to_text t)%string) (filter pushes targets)
  /\ log (navigate targets p)
     = log p ++ map (fun t => ("Navigating to:"%string, t)) targets
  /\ (forall t, fst (showSection t p)
                = if strict_eq t "correct_metrics"
                  then ReferenceError "initializeChart" else Returned).
Proof.
  split; [|split].
  - revert p. induction targets as [|t targets IH]; intros p;
      cbn [navigate fold_left map filter].
    + now rewrite app_nil_r.
    + fold (navigate targets (snd (showSection t p))).
      rewrite IH, showSection_history.
      destruct (pushes t); cbn [map]; [rewrite <- app_assoc|]; reflexivity.
  - revert p. induction targets as [|t targets IH]; intros p; cbn [navigate fold_left map].
    + now rewrite app_nil_r.
    + fold (navigate targets (snd (showSection t p))).
      rewrite IH, showSection_log, <- app_assoc. reflexivity.
  - intros t. destruct (showSection_fields t p) as (_ & _ & _ & _ & H). rewrite H.
    unfold pushes. destruct (strict_eq t "correct_metrics"); reflexivity.
Qed.

Lemma update_same (id : string) (e : section) (els : string -> option section) :
  update id e els id = Some e.
Proof. unfold update. now rewrite String.eqb_refl. Qed.

Lemma update_other (id id' : string) (e : section) (els : string -> option section) :
  id' <> id -> update id e els id' = els id'.
Proof. intros H. unfold update. apply String.eqb_neq in H. now rewrite H. Qed.

Lemma update_defined (id id' : string) (e e0 : section) (els : string -> option section) :
  els id = Some e0 -> (update id e els id' = None <-> els id' = None).
Proof.
  intros H. unfold update. destruct (String.eqb_spec id' id) as [->|_].
  - rewrite H. split; discriminate.
  - reflexivity.
Qed.

Lemma hide_current_defined (p : page) (id : string) :
  elements (hide_current p) id = None <-> elements p id = None.
Proof.
  unfold hide_current.
  destruct (elements p (to_text (currentSectionId p))) as [e|] eqn:E; [|reflexivity].
  cbn. apply (update_defined _ _ _ e), E.
Qed.

Lemma show_new_defined (t : jsvalue) (p : page) (id : string) :
  elements (show_new t p) id = None <-> elements p id = None.
Proof.
  unfold show_new. destruct (elements p (to_text t)) as [e|] eqn:E; [|reflexivity].
  cbn. apply (update_defined _ _ _ e), E.
Qed.

(** No navigation adds or removes an element. *)
Lemma showSection_defined (t : jsvalue) (p : page) (id : string) :
  elements (snd (showSection t p)) id = None <-> elements p id = None.
Proof.
  destruct (showSection_fields t p) as (_ & -> & _).
  rewrite show_new_defined, hide_current_defined. reflexivity.
Qed.

Lemma showSection_current (t : jsvalue) (p : page) :
  currentSectionId (snd (showSection t p))
  = match elements p (to_text t) with Some _ => t | None => currentSectionId p end.
Proof.
  destruct (showSection_fields t p) as (-> & _).
  set (q := hide_current (console_log "Navigating to:" t p)).
  assert (Hq : elements q (to_text t) = None <-> elements p (to_text t) = None)
    by apply (hide_current_defined (console_log "Navigating to:" t p)).
  assert (Hc : currentSectionId q = currentSectionId p).
  { unfold q. destruct (hide_current_fields (console_log "Navigating to:" t p)) as (-> & _).
    reflexivity. }
  unfold show_new. destruct (elements q (to_text t)) as [e|] eqn:E.
  - cbn. destruct (elements p (to_text t)); [reflexivity|].
    destruct Hq as [_ Hq]. now specialize (Hq eq_refl).
  - destruct (elements p (to_text t)) eqn:E'; [|exact Hc].
    destruct Hq as [Hq _]. now specialize (Hq eq_refl).
Qed.

Lemma showSection_keeps_current (t : jsvalue) (p : page) :
  elements p (to_text (currentSectionId p)) <> None ->
  elements (snd (showSection t p))
    (to_text (currentSectionId (snd (showSection t p)))) <> None.
Proof.
  intros H. rewrite showSection_current, showSection_defined.
  destruct (elements p (to_text t)) eqn:E; [now rewrite E | exact H].
Qed.

(** [currentSectionId] always names a section of the page: if the page has
    a section [home], then after [initializePage] and any series of
    navigations, to sections that exist or not, the element named by
    [currentSectionId] exists. *)
Theorem current_section_exists
    (els : string -> option section) (hash : string) (targets : list jsvalue) :
  els "home"%string <> None ->
  let p := navigate targets (initializePage hash (initial els)) in
  elements p (to_text (currentSectionId p)) <> None.
Proof.
  intros Hhome.
  assert (H0 : elements (initializePage hash (initial els))
                 (to_text (currentSectionId (initializePage hash (initial els)))) <> None).
  { unfold initializePage, initial. cbn.
    destruct (els (section_of_hash hash)) eqn:E; cbn.
    - rewrite update_same. discriminate.
    - exact Hhome. }
  generalize dependent (initializePage hash (initial els)).
  induction targets as [|t targets IH]; intros p Hp; cbn [navigate fold_left].
  - exact Hp.
  - apply IH, showSection_keeps_current, Hp.
Qed.

(** Navigating to an id that no element has: the section shown loses its
    [active] class all the same, nothing else is shown, and
    [currentSectionId] keeps naming the section that was hidden. The call
    returns and the address is pushed, except for ['correct_metrics'], where
    it throws a [ReferenceError] and the history is as it was. *)
Theorem showSection_missing_target (t : jsvalue) (p : page) (e : section) :
  elements p (to_text t) = None ->
  elements p (to_text (currentSectionId p)) = Some e ->
  let p' := snd (showSection t p) in
  currentSectionId p' = currentSectionId p
  /\ elements p' (to_text (currentSectionId p)) = Some (mkSection false (zIndex e))
  /\ (forall id, id <> to_text (currentSectionId p) -> elements p' id = elements p id)
  /\ (strict_eq t "correct_metrics" = false ->
      fst (showSection t p) = Returned
      /\ history p' = history p ++ [("#" ++ to_text t)%string])
  /\ (strict_eq t "correct_metrics" = true ->
      fst (showSection t p) = ReferenceError "initializeChart"
      /\ history p' = history p).
Proof.
  intros Ht Hc p'. unfold p'.
  split; [rewrite showSection_current, Ht; reflexivity|].
  destruct (showSection_fields t p) as (_ & E & _ & _ & F). rewrite E.
  assert (Hq : elements (show_new t (hide_current (console_log "Navigating to:" t p)))
               = update (to_text (currentSectionId p)) (mkSection false (zIndex e))
                        (elements p)).
  { unfold show_new.
    assert (N : elements (hide_current (console_log "Navigating to:" t p)) (to_text t) = None)
      by (apply hide_current_defined; exact Ht).
    rewrite N. unfold hide_current. cbn. rewrite Hc. reflexivity. }
  rewrite Hq. split; [apply update_same|]. split.
  - intros id Hid. apply update_other, Hid.
  - rewrite F, showSection_history. unfold pushes.
    split; intros ->; split; reflexivity.
Qed.

Lemma section_of_hash_nonempty (hash : string) : section_of_hash hash <> ""%string.
Proof.
  destruct hash as [|c rest]; cbn; [discriminate|].
  destruct (String.eqb_spec rest ""); [discriminate | assumption].
Qed.

(** The Back button. When the address the browser went to names the section
    shown (an empty hash names [home]), the listener does nothing;
    otherwise it runs [showSection], which pushes that address as a new
    history entry - except for ['#correct_metrics'], where [showSection]
    throws a [ReferenceError] and nothing is pushed. *)
Theorem popstate_behaviour (hash : string) (p : page) :
  (strict_eq (currentSectionId p) (section_of_hash hash) = true ->
   popstate hash p = (Returned, p))
  /\ (strict_eq (currentSectionId p) (section_of_hash hash) = false ->
      popstate hash p = showSection (Str (section_of_hash hash)) p
      /\ (String.eqb (section_of_hash hash) "correct_metrics" = false ->
          fst (popstate hash p) = Returned
          /\ history (snd (popstate hash p))
             = history p ++ [("#" ++ section_of_hash hash)%string])
      /\ (String.eqb (section_of_hash hash) "correct_metrics" = true ->
          fst (popstate hash p) = ReferenceError "initializeChart"
          /\ history (snd (popstate hash p)) = history p)).
Proof.
  unfold popstate.
  assert (N : String.eqb (section_of_hash hash) "" = false)
    by (apply String.eqb_neq, section_of_hash_nonempty).
  rewrite N. split; intros H; rewrite H; cbn [negb andb]; [reflexivity|].
  split; [reflexivity|].
  destruct (showSection_fields (Str (section_of_hash hash)) p) as (_ & _ & _ & _ & F).
  rewrite F, showSection_history. unfold pushes. cbn [strict_eq to_text].
  split; intros ->; split; reflexivity.
Qed.

Lemma settle_navigation (cur tgt : string) (q : page) (e1 e2 : section)
      (extra : list (task * nat)) :
  timers q = (SetZIndex cur (-1), 800%nat) :: (Activate tgt, 50%nat) :: extra ->
  (extra = [] \/ exists f, extra = [(Call f, 500%nat)] \/ extra = [(Call f, 100%nat)]) ->
  elements q cur = Some e1 ->
  elements q tgt = Some e2 ->
  exists e',
    update tgt (mkSection true (zIndex e2)) (elements q) cur = Some e'
    /\ timers (settle 8 q) = []
    /\ elements (settle 8 q)
       = update cur (mkSection (active e') (Some (-1)%Z))
                (update tgt (mkSection true (zIndex e2)) (elements q))
    /\ currentSectionId (settle 8 q) = currentSectionId q.
Proof.
  destruct q as [c els lg ts cs hs]. cbn [timers elements currentSectionId].
  intros -> Hx Hc Ht.
  destruct (update tgt (mkSection true (zIndex e2)) els cur) as [e'|] eqn:E'.
  2:{ apply (update_defined tgt cur (mkSection true (zIndex e2)) e2 els Ht) in E'.
      congruence. }
  exists e'. split; [reflexivity|].
  destruct Hx as [->|[f [->| ->]]].
  - cbn -[update]. rewrite Ht. cbn -[update]. rewrite E'. cbn -[update].
    repeat split.
  - cbn -[update]. rewrite Ht. cbn -[update]. rewrite E'. cbn -[update].
    repeat split.
  - cbn -[update]. rewrite Ht. cbn -[update]. rewrite E'. cbn -[update].
    repeat split.
Qed.

(** Step 1.3 registers at most one timer, for a call, and leaves the rest
    of the page to steps 1.1, 1.2 and 1.4. *)
Lemma showSection_shape (t : jsvalue) (p : page) :
  let q := show_new t (hide_current (console_log "Navigating to:" t p)) in
  exists extra hs,
    (extra = [] \/ exists f, extra = [(Call f, 500%nat)] \/ extra = [(Call f, 100%nat)])
    /\ snd (showSection t p)
       = mkPage (currentSectionId q) (elements q) (log q) (timers q ++ extra)
                (calls q) (history q ++ hs).
Proof.
  intros q. unfold showSection, when. fold q.
  repeat match goal with
         | |- context [strict_eq t ?n] =>
             let E := fresh "E" in
             destruct (strict_eq t n) eqn:E;
             [apply NavigationTheory.strict_eq_true in E; subst t;
              repeat match goal with
                     | |- context [strict_eq (Str ?a) ?b] =>
                         change (strict_eq (Str a) b) with false
                     end |]
         end.
  all: unfold pushState, setTimeout;
    cbn [snd currentSectionId elements log timers calls history].
  all: first
    [ exists [], []; split;
        [left; reflexivity | rewrite !app_nil_r; destruct q; reflexivity]
    | eexists [], [_]; split;
        [left; reflexivity | rewrite !app_nil_r; reflexivity]
    | eexists [(Call _, 500%nat)], [_]; split;
        [right; eexists; left; reflexivity | reflexivity]
    | eexists [(Call _, 100%nat)], [_]; split;
        [right; eexists; right; reflexivity | reflexivity] ].
Qed.

(** Steps 1.1 and 1.2 on a page with no timer pending, when both the
    section shown and the target exist. *)
Lemma show_hide_shape (t : jsvalue) (p : page) (ec et : section) :
  timers p = [] ->
  elements p (to_text (currentSectionId p)) = Some ec ->
  elements p (to_text t) = Some et ->
  let cur := to_text (currentSectionId p) in
  let hidden := update cur (mkSection false (zIndex ec)) (elements p) in
  let q := show_new t (hide_current (console_log "Navigating to:" t p)) in
  exists e,
    hidden (to_text t) = Some e
    /\ timers q = [(SetZIndex cur (-1), 800%nat); (Activate (to_text t), 50%nat)]
    /\ elements q = update (to_text t) (mkSection (active e) (Some 1%Z)) hidden
    /\ currentSectionId q = t.
Proof.
  destruct p as [c els lg ts cs hs]. cbn [timers elements currentSectionId].
  intros -> Hc Ht.
  set (cur := to_text c) in *.
  set (hidden := update cur (mkSection false (zIndex ec)) els).
  set (q := show_new t _).
  destruct (hidden (to_text t)) as [e|] eqn:E.
  2:{ apply (update_defined cur (to_text t) (mkSection false (zIndex ec)) ec els Hc) in E.
      congruence. }
  exists e. split; [reflexivity|].
  unfold q, show_new, hide_current, console_log, setTimeout.
  cbn [timers elements currentSectionId log calls history].
  fold cur. rewrite Hc. cbn [timers elements currentSectionId log calls history].
  fold hidden. rewrite E. cbn. repeat split.
Qed.

(** Navigation from the section shown to another one, left alone until
    its timers have fired: the old section is inactive with [z-index] -1,
    the new one active with [z-index] 1, the other elements are as they
    were, and the new section is the current one. *)
Theorem navigation_settles (t : jsvalue) (p : page) (ec et : section) :
  timers p = [] ->
  to_text t <> to_text (currentSectionId p) ->
  elements p (to_text (currentSectionId p)) = Some ec ->
  elements p (to_text t) = Some et ->
  let p' := settle 8 (snd (showSection t p)) in
  timers p' = []
  /\ currentSectionId p' = t
  /\ elements p' (to_text (currentSectionId p)) = Some (mkSection false (Some (-1)%Z))
  /\ elements p' (to_text t) = Some (mkSection true (Some 1%Z))
  /\ (forall id, id <> to_text (currentSectionId p) -> id <> to_text t ->
                 elements p' id = elements p id).
Proof.
  intros Hts Hne Hc Ht p'.
  destruct (show_hide_shape t p ec et Hts Hc Ht) as (e & He & Tq & Eq & Cq).
  destruct (showSection_shape t p) as (extra & hs & Hx & Hs).
  cbv zeta in Hs. rewrite Tq, Eq, Cq in Hs.
  set (cur := to_text (currentSectionId p)) in *.
  set (hidden := update cur (mkSection false (zIndex ec)) (elements p)) in *.
  assert (Hcur : update (to_text t) (mkSection (active e) (Some 1%Z)) hidden cur
                 = Some (mkSection false (zIndex ec))).
  { rewrite update_other by congruence. apply update_same. }
  destruct (settle_navigation cur (to_text t) (snd (showSection t p))
              (mkSection false (zIndex ec)) (mkSection (active e) (Some 1%Z)) extra)
    as (e' & He' & T' & E' & C').
  { rewrite Hs. reflexivity. }
  { exact Hx. }
  { rewrite Hs. exact Hcur. }
  { rewrite Hs. apply update_same. }
  fold p' in T', E', C'. rewrite Hs in He', E', C'.
  cbn [elements currentSectionId zIndex] in He', E', C'.
  rewrite update_other in He' by congruence. rewrite Hcur in He'.
  injection He' as <-. cbn [active] in E'.
  split; [exact T'|]. split; [exact C'|]. rewrite E'. split; [apply update_same|].
  split.
  - rewrite update_other by congruence. apply update_same.
  - intros id H1 H2. rewrite !update_other by assumption.
    unfold hidden. apply update_other, H1.
Qed.

(** Navigation to the section already shown, left alone until its timers
    have fired: the section is active again, but its [z-index] is -1: the
    timer that lowers the section that was left fires after the one that
    shows the section that was entered. *)
Theorem renavigation_settles (t : jsvalue) (p : page) (e : section) :
  timers p = [] ->
  to_text t = to_text (currentSectionId p) ->
  elements p (to_text t) = Some e ->
  let p' := settle 8 (snd (showSection t p)) in
  timers p' = []
  /\ elements p' (to_text t) = Some (mkSection true (Some (-1)%Z))
  /\ (forall id, id <> to_text t -> elements p' id = elements p id).
Proof.
  intros Hts Heq Ht p'.
  assert (Hc : elements p (to_text (currentSectionId p)) = Some e) by (now rewrite <- Heq).
  destruct (show_hide_shape t p e e Hts Hc Ht) as (e0 & He & Tq & Eq & Cq).
  destruct (showSection_shape t p) as (extra & hs & Hx & Hs).
  cbv zeta in Hs. rewrite Tq, Eq, Cq in Hs.
  rewrite <- Heq in *.
  set (tgt := to_text t) in *.
  set (hidden := update tgt (mkSection false (zIndex e)) (elements p)) in *.
  destruct (settle_navigation tgt tgt (snd (showSection t p))
              (mkSection (active e0) (Some 1%Z)) (mkSection (active e0) (Some 1%Z)) extra)
    as (e' & He' & T' & E' & _).
  { rewrite Hs. reflexivity. }
  { exact Hx. }
  { rewrite Hs. apply update_same. }
  { rewrite Hs. apply update_same. }
  fold p' in T', E'. rewrite Hs in He', E'.
  cbn [elements zIndex] in He', E'.
  rewrite update_same in He'. injection He' as <-. cbn [active] in E'.
  split; [exact T'|]. rewrite E'. split; [apply update_same|].
  intros id H. rewrite !update_other by assumption.
  unfold hidden. apply update_other, H.
Qed.

Lemma current_section_exists_witness :
  sample_sections "home"%string <> None
  /\ elements (navigate [Str "nowhere"; Str "quiz"] (initializePage "#correct" (initial sample_sections)))
       (to_text (currentSectionId
          (navigate [Str "nowhere"; Str "quiz"]
                    (initializePage "#correct" (initial sample_sections))))) <> None.
Proof.
  split; [discriminate|].
  apply (current_section_exists sample_sections "#correct" [Str "nowhere"; Str "quiz"]).
  discriminate.
Defined.

Lemma showSection_missing_target_witness :
  (elements (initial sample_sections) (to_text (Str "correct_metrics")) = None
   /\ elements (initial sample_sections) (to_text (currentSectionId (initial sample_sections)))
      = Some (mkSection true (Some 1%Z)))
  /\ currentSectionId (snd (showSection (Str "correct_metrics") (initial sample_sections)))
     = currentSectionId (initial sample_sections)
  /\ elements (snd (showSection (Str "correct_metrics") (initial sample_sections)))
       "home"%string
     = Some (mkSection false (Some 1%Z))
  /\ fst (showSection (Str "correct_metrics") (initial sample_sections))
     = ReferenceError "initializeChart"
  /\ history (snd (showSection (Str "correct_metrics") (initial sample_sections)))
     = history (initial sample_sections).
Proof.
  split; [split; reflexivity|].
  destruct (showSection_missing_target (Str "correct_metrics") (initial sample_sections)
              (mkSection true (Some 1%Z)) eq_refl eq_refl) as (Hc & He & _ & _ & Ht).
  destruct (Ht eq_refl) as [Hf Hh].
  repeat split; assumption.
Defined.

Lemma popstate_behaviour_witness :
  (strict_eq (currentSectionId (initial sample_sections)) (section_of_hash "") = true
   /\ popstate "" (initial sample_sections) = (Returned, initial sample_sections))
  /\ (strict_eq (currentSectionId (initial sample_sections)) (section_of_hash "#quiz") = false
      /\ String.eqb (section_of_hash "#quiz") "correct_metrics" = false
      /\ fst (popstate "#quiz" (initial sample_sections)) = Returned
      /\ history (snd (popstate "#quiz" (initial sample_sections)))
         = history (initial sample_sections) ++ ["#quiz"%string]).
Proof.
  split.
  - split; [reflexivity|].
    apply (popstate_behaviour "" (initial sample_sections)). reflexivity.
  - split; [reflexivity|]. split; [reflexivity|].
    apply (popstate_behaviour "#quiz" (initial sample_sections)); reflexivity.
Defined.

Lemma navigation_settles_witness :
  (timers (initial sample_sections) = []
   /\ to_text (Str "quiz") <> to_text (currentSectionId (initial sample_sections))
   /\ elements (initial sample_sections)
        (to_text (currentSectionId (initial sample_sections)))
      = Some (mkSection true (Some 1%Z))
   /\ elements (initial sample_sections) (to_text (Str "quiz")) = Some (mkSection false None))
  /\ elements (settle 8 (snd (showSection (Str "quiz") (initial sample_sections))))
       (to_text (Str "quiz"))
     = Some (mkSection true (Some 1%Z)).
Proof.
  split; [split; [reflexivity | split; [discriminate | split; reflexivity]]|].
  apply (navigation_settles (Str "quiz") (initial sample_sections)
           (mkSection true (Some 1%Z)) (mkSection false None));
    [reflexivity | discriminate | reflexivity | reflexivity].
Defined.

Lemma renavigation_settles_witness :
  (timers (initial sample_sections) = []
   /\ to_text (Str "home") = to_text (currentSectionId (initial sample_sections))
   /\ elements (initial sample_sections) (to_text (Str "home"))
      = Some (mkSection true (Some 1%Z)))
  /\ elements (settle 8 (snd (showSection (Str "home") (initial sample_sections))))
       (to_text (Str "home"))
     = Some (mkSection true (Some (-1)%Z)).
Proof.
  split; [repeat split|].
  apply (renavigation_settles (Str "home") (initial sample_sections)
           (mkSection true (Some 1%Z))); reflexivity.
Defined.

End NavigationProperties.

(** ** Info buttons and the chart *)

Module InfoButtonsProperties.
Import Json InfoButtons.

Lemma toggle_display_twice (d : string) :
  toggle_display (toggle_display d) = settled_display d.
Proof.
  unfold toggle_display, settled_display. destruct (String.eqb d "block"); reflexivity.
Qed.

Lemma toggle_display_thrice (d : string) :
  toggle_display (toggle_display (toggle_display d)) = toggle_display d.
Proof.
  unfold toggle_display. destruct (String.eqb d "block"); reflexivity.
Qed.

Lemma set_display_same (id v : string) (display : displays) :
  set_display id v display id = Some v.
Proof. unfold set_display. now rewrite String.eqb_refl. Qed.

Lemma set_display_other (id id' v : string) (display : displays) :
  id' <> id -> set_display id v display id' = display id'.
Proof. intros H. unfold set_display. apply String.eqb_neq in H. now rewrite H. Qed.

Lemma toggle_active_twice (b : button) : toggle_active (toggle_active b) = b.
Proof. destruct b as [a t n]. unfold toggle_active; cbn. now rewrite negb_involutive. Qed.

(** [toggleInfo] with an id that no element has raises a [TypeError] after
    it has toggled the class of the button. With an id that an element has,
    two calls in a row give the button its class back and leave the content
    shown if it was shown ([display] is ['block']) and hidden otherwise
    ([display] becomes ['none'], whatever it was). *)
Theorem toggleInfo_twice (infoId : string) (b : button) (display : displays) :
  (display infoId = None ->
   toggleInfo infoId b display = (Throw TypeError, toggle_active b, display)
   /\ active (snd (fst (toggleInfo infoId b display))) = negb (active b))
  /\ (forall d0, display infoId = Some d0 ->
      exists display1 display2,
        toggleInfo infoId b display = (Normal tt, toggle_active b, display1)
        /\ toggleInfo infoId (toggle_active b) display1 = (Normal tt, b, display2)
        /\ display2 infoId = Some (settled_display d0)
        /\ (forall id, id <> infoId -> display2 id = display id)).
Proof.
  split.
  - intros H. unfold toggleInfo. rewrite H. split; reflexivity.
  - intros d0 H.
    exists (set_display infoId (toggle_display d0) display).
    exists (set_display infoId (toggle_display (toggle_display d0))
              (set_display infoId (toggle_display d0) display)).
    unfold toggleInfo. rewrite H, set_display_same, toggle_active_twice.
    split; [reflexivity|]. split; [reflexivity|]. split.
    + rewrite set_display_same, toggle_display_twice. reflexivity.
    + intros id Hid. now rewrite !set_display_other.
Qed.

Lemma iter_toggle_display (n : nat) (d0 : string) :
  Nat.iter n toggle_display d0
  = if (n =? 0)%nat then d0
    else if Nat.even n then settled_display d0 else toggle_display d0.
Proof.
  induction n as [|n IH]; [reflexivity|].
  rewrite Nat.iter_succ, IH. cbn [Nat.eqb]. rewrite Nat.even_succ, <- Nat.negb_even.
  destruct n as [|n]; [reflexivity|]. cbn [Nat.eqb].
  destruct (Nat.even (S n)); cbn [negb].
  - rewrite <- toggle_display_twice. apply toggle_display_thrice.
  - apply toggle_display_twice.
Qed.

Lemma dispatch_toggles (n : nat) :
  forall (b : button) (display : displays) (t d0 : string),
    data_target b = Some t -> t <> ""%string -> display t = Some d0 ->
    let (b', display') := dispatch n b display in
    active b' = (if Nat.even n then active b else negb (active b))
    /\ display' t = Some (Nat.iter n toggle_display d0).
Proof.
  induction n as [|n IH]; intros b display t d0 Ht Hne Hd.
  - cbn. split; [reflexivity | exact Hd].
  - cbn [dispatch]. unfold on_click. rewrite Ht.
    apply String.eqb_neq in Hne. rewrite Hne, Hd.
    specialize (IH (toggle_active b) (set_display t (toggle_display d0) display)
                   t (toggle_display d0) Ht).
    apply String.eqb_neq in Hne.
    specialize (IH Hne (set_display_same _ _ _)).
    destruct (dispatch n (toggle_active b) (set_display t (toggle_display d0) display))
      as [b' display'].
    destruct IH as [Ha Hdisp]. split.
    + rewrite Ha. cbn [toggle_active active].
      rewrite Nat.even_succ, <- Nat.negb_even.
      destruct (Nat.even n); cbn [negb]; [reflexivity | apply negb_involutive].
    + rewrite Hdisp. rewrite <- Nat.iter_succ_r. reflexivity.
Qed.

Lemma buttons_initialized (n : nat) (d : dom) :
  buttons (Nat.iter n initializeInteractiveButtons d)
  = map (fun b => mkButton (active b) (data_target b) (n + listeners b)) (buttons d)
  /\ display (Nat.iter n initializeInteractiveButtons d) = display d.
Proof.
  induction n as [|n [IHb IHd]]; [|rewrite Nat.iter_succ].
  - cbn. split; [|reflexivity]. rewrite <- (map_id (buttons d)) at 1.
    apply map_ext. now intros [a t l].
  - split.
    + unfold initializeInteractiveButtons at 1. cbn [buttons].
      rewrite IHb, map_map. reflexivity.
    + unfold initializeInteractiveButtons at 1. cbn [display]. exact IHd.
Qed.

Lemma nth_error_set_nth {A} (i : nat) (a x : A) (l : list A) :
  nth_error l i = Some x -> nth_error (set_nth i a l) i = Some a.
Proof.
  revert i. induction l as [|y l IH]; intros [|i] H; try discriminate; cbn.
  - reflexivity.
  - apply IH, H.
Qed.

(** [initializeInteractiveButtons] adds a listener each time it runs, and
    [showSection] runs it each time the California case is shown. After [n]
    runs a click toggles [n] times: for an odd [n] it opens or closes the
    content; for an even [n] the button keeps its class and content that
    was not shown stays hidden. *)
Theorem click_after_initializations
    (n i : nat) (d : dom) (b : button) (t d0 : string) :
  nth_error (buttons d) i = Some b ->
  listeners b = 0%nat ->
  data_target b = Some t ->
  t <> ""%string ->
  display d t = Some d0 ->
  let d' := click i (Nat.iter n initializeInteractiveButtons d) in
  exists b',
    nth_error (buttons d') i = Some b'
    /\ active b' = (if Nat.even n then active b else negb (active b))
    /\ display d' t
       = Some (if (n =? 0)%nat then d0
               else if Nat.even n then settled_display d0 else toggle_display d0).
Proof.
  intros Hb Hl Ht Hne Hd d'. unfold d', click.
  destruct (buttons_initialized n d) as [Eb Ed]. rewrite Eb, Ed.
  rewrite nth_error_map, Hb. cbn [option_map listeners]. rewrite Hl, Nat.add_0_r.
  pose proof (dispatch_toggles n (mkButton (active b) (data_target b) n)
                (display d) t d0 Ht Hne Hd) as H.
  destruct (dispatch n (mkButton (active b) (data_target b) n) (display d))
    as [b' display'].
  destruct H as [Ha Hdisp]. exists b'. cbn [buttons display]. split.
  - apply (nth_error_set_nth i b' (mkButton (active b) (data_target b) n)).
    rewrite nth_error_map, Hb. cbn [option_map]. now rewrite Hl, Nat.add_0_r.
  - split; [exact Ha|]. rewrite Hdisp. f_equal. apply iter_toggle_display.
Qed.

Lemma toggleInfo_twice_witness :
  display sample_dom "water-info"%string = Some "none"%string
  /\ exists display1 display2,
       toggleInfo "water-info"%string (mkButton false (Some "water-info"%string) 0)
                  (display sample_dom)
       = (Normal tt, toggle_active (mkButton false (Some "water-info"%string) 0), display1)
       /\ toggleInfo "water-info"%string
            (toggle_active (mkButton false (Some "water-info"%string) 0)) display1
          = (Normal tt, mkButton false (Some "water-info"%string) 0, display2)
       /\ display2 "water-info"%string = Some (settled_display "none"%string)
       /\ (forall id, id <> "water-info"%string -> display2 id = display sample_dom id).
Proof.
  split; [reflexivity|].
  apply (toggleInfo_twice "water-info"%string (mkButton false (Some "water-info"%string) 0)
           (display sample_dom)).
  reflexivity.
Defined.

Lemma click_after_initializations_witness :
  (nth_error (buttons sample_dom) 0 = Some (mkButton false (Some "water-info"%string) 0)
   /\ listeners (mkButton false (Some "water-info"%string) 0) = 0%nat
   /\ data_target (mkButton false (Some "water-info"%string) 0) = Some "water-info"%string
   /\ "water-info"%string <> ""%string
   /\ display sample_dom "water-info"%string = Some "none"%string)
  /\ exists b',
       nth_error (buttons (click 0 (Nat.iter 2 initializeInteractiveButtons sample_dom))) 0
       = Some b'
       /\ active b' = false
       /\ display (click 0 (Nat.iter 2 initializeInteractiveButtons sample_dom)) "water-info"%string
          = Some "none"%string.
Proof.
  split; [repeat split; discriminate|].
  apply (click_after_initializations 2 0 sample_dom
           (mkButton false (Some "water-info"%string) 0) "water-info"%string "none"%string);
    [reflexivity | reflexivity | reflexivity | discriminate | reflexivity].
Defined.

End InfoButtonsProperties.

Module AirQualityChartProperties.
Import AirQualityChart.

(** What every run of [initializeAirQualityChart] keeps: a live chart is
    the one the variable holds, and the numbers of the charts destroyed or
    held are below the number of charts made. *)
Lemma initialize_invariant (canvas : bool) (s : charts) :
  ((forall c, live s c = true -> airQualityChartInstance s = Some c)
   /\ (forall c, In c (destroyed s) -> (c < created s)%nat)
   /\ (forall c, airQualityChartInstance s = Some c -> (c < created s)%nat)) ->
  let s' := initializeAirQualityChart canvas s in
  (forall c, live s' c = true -> airQualityChartInstance s' = Some c)
  /\ (forall c, In c (destroyed s') -> (c < created s')%nat)
  /\ (forall c, airQualityChartInstance s' = Some c -> (c < created s')%nat).
Proof.
  intros (Hlive & Hd & Hi) s'.
  assert (Hd' : forall c, In c (match airQualityChartInstance s with
                                | Some c0 => destroyed s ++ [c0]
                                | None => destroyed s
                                end) -> (c < created s)%nat).
  { intros c Hc. destruct (airQualityChartInstance s) as [c0|] eqn:E; [|auto].
    apply in_app_or in Hc. destruct Hc as [Hc|[<-|[]]]; auto. }
  assert (Hold : forall c, live s' c = true -> (c < created s)%nat -> False).
  { intros c Hc Hlt. unfold live in Hc. apply andb_prop in Hc. destruct Hc as [_ Hn].
    apply negb_true_iff in Hn.
    assert (Hs : live s c = true -> False).
    { intros Hl. specialize (Hlive c Hl).
      assert (In c (destroyed s')) as Hin.
      { unfold s', initializeAirQualityChart. rewrite Hlive.
        destruct canvas; cbn [destroyed]; apply in_or_app; right; left; reflexivity. }
      assert (existsb (Nat.eqb c) (destroyed s') = true) as Hex.
      { apply existsb_exists. exists c. split; [exact Hin | apply Nat.eqb_refl]. }
      congruence. }
    apply Hs. unfold live. apply andb_true_intro. split.
    - apply Nat.ltb_lt, Hlt.
    - apply negb_true_iff. destruct (existsb (Nat.eqb c) (destroyed s)) eqn:Ex; [|reflexivity].
      apply existsb_exists in Ex. destruct Ex as [x [Hx Hcx]].
      apply Nat.eqb_eq in Hcx. subst x.
      assert (existsb (Nat.eqb c) (destroyed s') = true) as Hex.
      { apply existsb_exists. exists c. split; [|apply Nat.eqb_refl].
        unfold s', initializeAirQualityChart.
        destruct canvas, (airQualityChartInstance s); cbn [destroyed];
          try apply in_or_app; auto. }
      congruence. }
  unfold s', initializeAirQualityChart in *. destruct canvas; cbn [created destroyed airQualityChartInstance] in *.
  - split; [|split].
    + intros c Hc. destruct (Nat.lt_ge_cases c (created s)) as [Hlt|Hge].
      * destruct (Hold c Hc Hlt).
      * unfold live in Hc. apply andb_prop in Hc. destruct Hc as [Hc _].
        cbn [created] in Hc. apply Nat.ltb_lt in Hc.
        f_equal. apply Nat.le_antisymm; [exact Hge | apply Nat.lt_succ_r, Hc].
    + intros c Hc. apply Nat.lt_lt_succ_r, Hd', Hc.
    + intros c [= <-]. apply Nat.lt_succ_diag_r.
  - split; [|split].
    + intros c Hc. exfalso. apply (Hold c Hc).
      unfold live in Hc. apply andb_prop in Hc. destruct Hc as [Hc _].
      apply Nat.ltb_lt in Hc. exact Hc.
    + exact Hd'.
    + exact Hi.
Qed.

Lemma initial_invariant :
  (forall c, live no_charts c = true -> airQualityChartInstance no_charts = Some c)
  /\ (forall c, In c (destroyed no_charts) -> (c < created no_charts)%nat)
  /\ (forall c, airQualityChartInstance no_charts = Some c -> (c < created no_charts)%nat).
Proof.
  split; [|split].
  - intros c H. unfold live in H. cbn in H. discriminate.
  - intros c [].
  - intros c H. discriminate.
Qed.

Lemma initialize_all_invariant (canvases : list bool) (s : charts) :
  ((forall c, live s c = true -> airQualityChartInstance s = Some c)
   /\ (forall c, In c (destroyed s) -> (c < created s)%nat)
   /\ (forall c, airQualityChartInstance s = Some c -> (c < created s)%nat)) ->
  let s' := initialize_all canvases s in
  (forall c, live s' c = true -> airQualityChartInstance s' = Some c)
  /\ (forall c, In c (destroyed s') -> (c < created s')%nat)
  /\ (forall c, airQualityChartInstance s' = Some c -> (c < created s')%nat).
Proof.
  revert s. induction canvases as [|canvas canvases IH]; intros s H; cbn zeta.
  - exact H.
  - cbn [initialize_all fold_left]. apply (IH (initializeAirQualityChart canvas s)).
    apply initialize_invariant, H.
Qed.

(** However often [initializeAirQualityChart] runs, with the canvas there
    or not, at most one chart is alive - made and not destroyed - and it is
    the one [airQualityChartInstance] holds; after a run that found the
    canvas there is exactly one: the chart that run made. *)
Theorem one_live_chart (canvases : list bool) :
  let s := initialize_all canvases no_charts in
  (forall c, live s c = true -> airQualityChartInstance s = Some c)
  /\ (let s' := initializeAirQualityChart true s in
      airQualityChartInstance s' = Some (created s)
      /\ forall c, live s' c = (c =? created s)%nat).
Proof.
  intros s.
  destruct (initialize_all_invariant canvases no_charts initial_invariant) as (Hl & Hd & Hi).
  fold s in Hl, Hd, Hi. split; [exact Hl|]. cbv zeta.
  destruct (initialize_invariant true s (conj Hl (conj Hd Hi))) as (Hl' & Hd' & _).
  split; [reflexivity|]. intros c.
  destruct (Nat.eqb_spec c (created s)) as [->|Hne].
  - unfold live. apply andb_true_intro. split.
    + apply Nat.ltb_lt. cbn. apply Nat.lt_succ_diag_r.
    + apply negb_true_iff.
      destruct (existsb (Nat.eqb (created s))
                  (destroyed (initializeAirQualityChart true s))) eqn:Ex; [|reflexivity].
      apply existsb_exists in Ex. destruct Ex as [x [Hx Hcx]].
      apply Nat.eqb_eq in Hcx. subst x. exfalso.
      assert (In (created s) (match airQualityChartInstance s with
                              | Some c0 => destroyed s ++ [c0]
                              | None => destroyed s
                              end)) as Hin by exact Hx.
      destruct (airQualityChartInstance s) as [c0|] eqn:E.
      * apply in_app_or in Hin. destruct Hin as [Hin|[->|[]]].
        -- apply Hd in Hin. apply (Nat.lt_irrefl _ Hin).
        -- specialize (Hi _ eq_refl). apply (Nat.lt_irrefl _ Hi).
      * apply Hd in Hin. apply (Nat.lt_irrefl _ Hin).
  - destruct (live (initializeAirQualityChart true s) c) eqn:L; [|reflexivity].
    apply Hl' in L. cbn in L. congruence.
Qed.

Lemma one_live_chart_witness :
  live (initialize_all [true; false; true] no_charts) 1 = true
  /\ airQualityChartInstance (initialize_all [true; false; true] no_charts) = Some 1%nat.
Proof.
  split; [reflexivity|].
  apply (one_live_chart [true; false; true]). reflexivity.
Defined.

End AirQualityChartProperties.

(** ** The solutions navigation *)

Module SolutionsProperties.
Import Solutions.

Lemma iter_idempotent {A} (f : A -> A) (a : A) (n : nat) :
  f (f a) = f a -> Nat.iter (S n) f a = f a.
Proof.
  intros H. induction n as [|n IH]; [reflexivity|].
  rewrite Nat.iter_succ, IH. exact H.
Qed.

Lemma map_replace_nth {A B} (f : A -> B) (i : nat) (a : A) (l : list A) :
  map f (replace_nth i a l) = replace_nth i (f a) (map f l).
Proof.
  revert i. induction l as [|x l IH]; intros [|i]; cbn; try reflexivity.
  now rewrite IH.
Qed.

Lemma replace_nth_same {A} (i : nat) (a : A) (l : list A) :
  nth_error l i = Some a -> replace_nth i a l = l.
Proof.
  revert i. induction l as [|x l IH]; intros [|i] H; try discriminate; cbn in *.
  - now injection H as ->.
  - now rewrite IH.
Qed.

Lemma replace_nth_twice {A} (i : nat) (a b : A) (l : list A) :
  replace_nth i a (replace_nth i b l) = replace_nth i a l.
Proof.
  revert i. induction l as [|x l IH]; intros [|i]; cbn; try reflexivity.
  now rewrite IH.
Qed.

Lemma nth_error_replace_nth {A} (i j : nat) (a x : A) (l : list A) :
  nth_error l i = Some x ->
  nth_error (replace_nth i a l) j = if (j =? i)%nat then Some a else nth_error l j.
Proof.
  revert i j. induction l as [|y l IH]; intros [|i] [|j] H; try discriminate; cbn;
    try reflexivity.
  apply IH, H.
Qed.

Lemma getElementById_add_active (id : string) (l : list (string * panel)) (e : panel) :
  getElementById id l = Some e ->
  getElementById id (add_active id l) = Some (mkPanel (fullscreen e) true).
Proof.
  induction l as [|[k x] l IH]; [discriminate|]. cbn.
  destruct (String.eqb k id) eqn:E; cbn; rewrite E.
  - now intros [= ->].
  - exact IH.
Qed.

Lemma add_active_twice (id : string) (l : list (string * panel)) :
  add_active id (add_active id l) = add_active id l.
Proof.
  induction l as [|[k x] l IH]; [reflexivity|]. cbn.
  destruct (String.eqb k id) eqn:E; cbn; rewrite E; [reflexivity|].
  now rewrite IH.
Qed.

Lemma openSolution_twice (sid : option string) (d : document) :
  openSolution sid (openSolution sid d) = openSolution sid d.
Proof.
  unfold openSolution.
  destruct (getElementById (solution_element_id sid) (panels d)) as [e|] eqn:E.
  - cbn [panels navButtons previewItems].
    rewrite (getElementById_add_active _ _ _ E), add_active_twice. reflexivity.
  - now rewrite E.
Qed.

(** [openSolution] leaves the buttons and the items alone, and commutes
    with any change of the buttons. *)
Lemma openSolution_buttons (sid : option string) (d : document) (nb : list navButton) :
  openSolution sid (mkDom nb (previewItems d) (panels d) (overflow d))
  = mkDom nb (previewItems (openSolution sid d)) (panels (openSolution sid d))
          (overflow (openSolution sid d)).
Proof.
  unfold openSolution. cbn [panels navButtons previewItems overflow].
  destruct (getElementById (solution_element_id sid) (panels d)); reflexivity.
Qed.

Lemma openSolution_items (sid : option string) (d : document) :
  previewItems (openSolution sid d) = previewItems d.
Proof.
  unfold openSolution.
  destruct (getElementById (solution_element_id sid) (panels d)); reflexivity.
Qed.

Lemma openSolution_opened (sid : option string) (d : document) (nb : list navButton) :
  openSolution sid
    (mkDom nb (previewItems d) (panels (openSolution sid d)) (overflow (openSolution sid d)))
  = mkDom nb (previewItems d) (panels (openSolution sid d)) (overflow (openSolution sid d)).
Proof.
  unfold openSolution.
  destruct (getElementById (solution_element_id sid) (panels d)) as [e|] eqn:E;
    cbn [panels navButtons previewItems overflow].
  - rewrite (getElementById_add_active _ _ _ E), add_active_twice. reflexivity.
  - rewrite E. reflexivity.
Qed.

Lemma on_nav_click_eq (i : nat) (d : document) (b : navButton) :
  nth_error (navButtons d) i = Some b ->
  on_nav_click i d
  = mkDom (replace_nth i (set_active true b) (map (set_active false) (navButtons d)))
          (previewItems d)
          (panels (openSolution (data_solution b) d))
          (overflow (openSolution (data_solution b) d)).
Proof.
  intros H. unfold on_nav_click. rewrite H, openSolution_buttons, openSolution_items.
  reflexivity.
Qed.

Lemma on_nav_click_twice (i : nat) (d : document) :
  on_nav_click i (on_nav_click i d) = on_nav_click i d.
Proof.
  destruct (nth_error (navButtons d) i) as [b|] eqn:Hb.
  2:{ unfold on_nav_click. now rewrite Hb, Hb. }
  rewrite (on_nav_click_eq i d b Hb).
  set (nb := replace_nth i (set_active true b) (map (set_active false) (navButtons d))).
  assert (Hn : nth_error nb i = Some (set_active true b)).
  { unfold nb. rewrite (nth_error_replace_nth i i _ (set_active false b)).
    - now rewrite Nat.eqb_refl.
    - rewrite nth_error_map, Hb. reflexivity. }
  set (o := openSolution (data_solution b) d).
  rewrite (on_nav_click_eq i (mkDom nb (previewItems d) (panels o) (overflow o))
             (set_active true b) Hn).
  cbn [navButtons previewItems data_solution set_active].
  assert (Ho := openSolution_opened (data_solution b) d nb). fold o in Ho.
  rewrite Ho. cbn [panels overflow]. f_equal.
  unfold nb. rewrite map_replace_nth, map_map, replace_nth_twice. reflexivity.
Qed.

(** [initializeSolutionsNavigation] too adds a listener each time it runs,
    but its listeners can run any number of times: a click on a nav button
    that has one listener or more does what a single listener does. After
    it the clicked button is the only active one; the element
    [<data-solution>-solution], if there is one, is active and the body
    does not scroll; if there is none, elements and body are as before. *)
Theorem nav_click_once (n i : nat) (d : document) (b : navButton) :
  nth_error (navButtons d) i = Some b ->
  listeners b = S n ->
  let id := solution_element_id (data_solution b) in
  let d' := click_nav i d in
  d' = on_nav_click i d
  /\ (forall j bj, nth_error (navButtons d') j = Some bj -> active bj = (j =? i)%nat)
  /\ match getElementById id (panels d) with
     | Some e =>
         getElementById id (panels d') = Some (mkPanel (fullscreen e) true)
         /\ overflow d' = "hidden"%string
     | None => panels d' = panels d /\ overflow d' = overflow d
     end.
Proof.
  intros Hb Hl id d'.
  assert (E : d' = on_nav_click i d).
  { unfold d', click_nav. rewrite Hb, Hl. apply iter_idempotent, on_nav_click_twice. }
  split; [exact E|]. rewrite E, (on_nav_click_eq i d b Hb).
  cbn [navButtons panels overflow]. split.
  - intros j bj Hj.
    rewrite (nth_error_replace_nth i j _ (set_active false b)) in Hj
      by (rewrite nth_error_map, Hb; reflexivity).
    destruct (j =? i)%nat.
    + now injection Hj as <-.
    + rewrite nth_error_map in Hj. destruct (nth_error (navButtons d) j); [|discriminate].
      now injection Hj as <-.
  - unfold openSolution. fold id.
    destruct (getElementById id (panels d)) as [e|] eqn:Ee; cbn [panels overflow].
    + split; [apply getElementById_add_active, Ee | reflexivity].
    + split; reflexivity.
Qed.

Lemma nav_click_once_witness :
  (nth_error (navButtons (initializeSolutionsNavigation
                            (initializeSolutionsNavigation sample_document))) 1
   = Some (mkNavButton false (Some "air"%string) 2)
   /\ listeners (mkNavButton false (Some "air"%string) 2) = 2%nat)
  /\ click_nav 1 (initializeSolutionsNavigation (initializeSolutionsNavigation sample_document))
     = on_nav_click 1 (initializeSolutionsNavigation (initializeSolutionsNavigation sample_document)).
Proof.
  split; [split; reflexivity|].
  apply (nav_click_once 1 1
           (initializeSolutionsNavigation (initializeSolutionsNavigation sample_document))
           (mkNavButton false (Some "air"%string) 2)); reflexivity.
Defined.

Lemma on_preview_click_eq (j : nat) (d : document) (it : previewItem) :
  nth_error (previewItems d) j = Some it ->
  on_preview_click j d
  = mkDom (map (fun btn =>
                  let btn := set_active false btn in
                  if attribute_eq (data_solution btn) (item_solution it)
                  then set_active true btn else btn)
               (navButtons d))
          (previewItems d)
          (panels (openSolution (item_solution it) d))
          (overflow (openSolution (item_solution it) d)).
Proof.
  intros H. unfold on_preview_click. rewrite H, openSolution_buttons, openSolution_items.
  reflexivity.
Qed.

Lemma on_preview_click_twice (j : nat) (d : document) :
  on_preview_click j (on_preview_click j d) = on_preview_click j d.
Proof.
  destruct (nth_error (previewItems d) j) as [it|] eqn:Hj.
  2:{ unfold on_preview_click. now rewrite Hj, Hj. }
  rewrite (on_preview_click_eq j d it Hj).
  set (g := fun btn : navButton =>
              let btn := set_active false btn in
              if attribute_eq (data_solution btn) (item_solution it)
              then set_active true btn else btn).
  set (o := openSolution (item_solution it) d).
  rewrite (on_preview_click_eq j (mkDom (map g (navButtons d)) (previewItems d)
                                        (panels o) (overflow o)) it Hj).
  cbn [navButtons previewItems]. fold g.
  assert (Ho := openSolution_opened (item_solution it) d (map g (navButtons d))).
  fold o in Ho. rewrite Ho. cbn [panels overflow]. f_equal.
  rewrite map_map. apply map_ext. intros [a s n]. unfold g, set_active; cbn.
  destruct (attribute_eq s (item_solution it)) eqn:E; cbn; now rewrite E.
Qed.

(** A click on a preview item that has one listener or more does what a
    single listener does. After it a nav button is active exactly when its
    [data-solution] is that of the item: several buttons or none can be. *)
Theorem preview_click_once (n j : nat) (d : document) (it : previewItem) :
  nth_error (previewItems d) j = Some it ->
  item_listeners it = S n ->
  let d' := click_preview j d in
  d' = on_preview_click j d
  /\ List.length (navButtons d') = List.length (navButtons d)
  /\ (forall k bk,
        nth_error (navButtons d) k = Some bk ->
        exists bk',
          nth_error (navButtons d') k = Some bk'
          /\ active bk' = attribute_eq (data_solution bk) (item_solution it)).
Proof.
  intros Hj Hl d'.
  assert (E : d' = on_preview_click j d).
  { unfold d', click_preview. rewrite Hj, Hl. apply iter_idempotent, on_preview_click_twice. }
  split; [exact E|]. rewrite E, (on_preview_click_eq j d it Hj). cbn [navButtons].
  split; [apply length_map|].
  intros k [a s l] Hk. rewrite nth_error_map, Hk. cbn [option_map].
  eexists. split; [reflexivity|]. unfold set_active; cbn.
  destruct (attribute_eq s (item_solution it)); reflexivity.
Qed.

Lemma getElementById_add_active_shown (id id' : string) (l : list (string * panel)) (e : panel) :
  getElementById id' l = Some e -> shown e = true ->
  exists e', getElementById id' (add_active id l) = Some e' /\ shown e' = true
             /\ fullscreen e' = fullscreen e.
Proof.
  induction l as [|[k x] l IH]; [discriminate|]. cbn. intros H Hs.
  destruct (String.eqb k id) eqn:Ek; cbn.
  - destruct (String.eqb k id') eqn:Ek'.
    + injection H as ->. eexists. repeat split.
    + exists e. repeat split; assumption.
  - destruct (String.eqb k id') eqn:Ek'.
    + injection H as ->. exists e. repeat split; assumption.
    + apply IH; assumption.
Qed.

(** Opening never closes a panel. The listener of a nav button clears the
    other nav buttons, but of the elements found by id - the solution
    panels - it leaves every one that is active, active: a panel stays open
    under the next one until [closeSolution] runs, after which no panel is
    an active [solution-fullscreen]. *)
Theorem open_solutions_stay_open (i : nat) (d : document) (id : string) (e : panel) :
  getElementById id (panels d) = Some e ->
  shown e = true ->
  (exists e', getElementById id (panels (on_nav_click i d)) = Some e' /\ shown e' = true)
  /\ (forall k x, In (k, x) (panels (closeSolution (on_nav_click i d))) ->
                  fullscreen x && shown x = false).
Proof.
  intros He Hs. split.
  - destruct (nth_error (navButtons d) i) as [b|] eqn:Hb.
    + rewrite (on_nav_click_eq i d b Hb). cbn [panels]. unfold openSolution.
      destruct (getElementById (solution_element_id (data_solution b)) (panels d));
        cbn [panels].
      * destruct (getElementById_add_active_shown
                    (solution_element_id (data_solution b)) id (panels d) e He Hs)
          as (e' & H1 & H2 & _).
        exists e'. split; assumption.
      * exists e. split; assumption.
    + unfold on_nav_click. rewrite Hb. exists e. split; assumption.
  - intros k x Hin. unfold closeSolution in Hin. cbn [panels] in Hin.
    apply in_map_iff in Hin. destruct Hin as [[k0 x0] [Heq _]]. cbn [fst snd] in Heq.
    destruct (fullscreen x0 && shown x0) eqn:F.
    + injection Heq as <- <-. cbn. apply andb_false_r.
    + injection Heq as <- <-. exact F.
Qed.

Lemma preview_click_once_witness :
  (nth_error (previewItems (initializeSolutionsNavigation sample_document)) 0
   = Some (mkPreviewItem (Some "air"%string) 1)
   /\ item_listeners (mkPreviewItem (Some "air"%string) 1) = 1%nat)
  /\ click_preview 0 (initializeSolutionsNavigation sample_document)
     = on_preview_click 0 (initializeSolutionsNavigation sample_document).
Proof.
  split; [split; reflexivity|].
  apply (preview_click_once 0 0 (initializeSolutionsNavigation sample_document)
           (mkPreviewItem (Some "air"%string) 1)); reflexivity.
Defined.

Lemma open_solutions_stay_open_witness :
  (getElementById "water-solution" (panels (on_nav_click 0 sample_document))
   = Some (mkPanel true true)
   /\ shown (mkPanel true true) = true)
  /\ exists e',
       getElementById "water-solution"
         (panels (on_nav_click 1 (on_nav_click 0 sample_document))) = Some e'
       /\ shown e' = true.
Proof.
  split; [split; reflexivity|].
  apply (open_solutions_stay_open 1 (on_nav_click 0 sample_document) "water-solution"
           (mkPanel true true)); reflexivity.
Defined.

End SolutionsProperties.
